(** * ARC grant search: filter builder, paginated fetcher and exporters

    A shallow embedding of [search.py] (class [ARCGrantsAPI] and the export
    step of [main]) together with the properties stated about it.

    Conventions.  Python [str] values are Rocq strings (byte strings, read as
    UTF-8; byte-wise lexicographic order is code-point order).  Python [int]
    is [Z].  A Python [dict] is an association list in insertion order.
    [print] appends a line to an explicit log.  The file system, the HTTP
    server and the SQLite engine are explicit values threaded through the
    functions that use them. *)

From Stdlib Require Import ZArith Ascii String List Sorting.Sorted Lia.
From Stdlib Require Import Floats.SpecFloat.
From Stdlib Require OrdersEx.
From stdpp Require Import base option list sorting gmap strings pretty.

Local Open Scope Z_scope.
Local Open Scope stdpp_scope.

(** A decidable proposition about concrete data, by evaluation. *)
Ltac decide_by_computation :=
  refine (bool_decide_unpack _ _); vm_compute; exact I.

(** ** Python values *)

(** The double quote character, and a one-character string holding it. *)
Definition dquote_char : ascii := ascii_of_nat 34.
Definition dquote : string := String dquote_char EmptyString.

(** [sep.join(parts)]. *)
Fixpoint join (sep : string) (parts : list string) : string :=
  match parts with
  | [] => EmptyString
  | [p] => p
  | p :: rest => p +:+ sep +:+ join sep rest
  end.

(** JSON documents as [json.loads] delivers them: the tagged values of the
    data model. *)
#[local] Set Warnings "-register-all".
Inductive json : Type :=
  | JNull
  | JBool (b : bool)
  | JInt (n : Z)
  | JFloat (f : spec_float)
  | JStr (s : string)
  | JList (items : list json)
  | JDict (members : list (string * json)).

(** Truth value of an optional string argument: [None] and the empty string
    are falsy. *)
Definition truthy_str (o : option string) : bool :=
  match o with
  | Some (String _ _) => true
  | _ => false
  end.

(** ** Filter builder ([build_filter_query]) *)

(** The keyword arguments; every one defaults to [None]. *)
Record filter_args : Type := FilterArgs {
  search_text : option string;
  scheme : option string;
  admin_org : option string;
  admin_org_short : option string;
  status : option string;
  year_from : option string;
  year_to : option string;
  funding_from : option string;
  funding_to : option string;
  fellowships_only : option string;
  lief_register : option string;
  four_digit_for : option string;
  two_digit_for : option string
}.

Definition no_filter : filter_args :=
  FilterArgs None None None None None None None None None None None None None.

(** The f-string [f'<field>="{value}"']. *)
Definition clause (field : string) (value : option string) : string :=
  field +:+ "=" +:+ dquote +:+ default EmptyString value +:+ dquote.

(** One [if value: filter_parts.append(...)] statement. *)
Definition add_filter (field : string) (value : option string)
    (filter_parts : list string) : list string :=
  if truthy_str value then filter_parts ++ [clause field value]
  else filter_parts.

(** The list [filter_parts] when control reaches the final [if]. *)
Definition filter_parts (a : filter_args) : list string :=
  let parts := [] in
  let parts := add_filter "scheme" (scheme a) parts in
  let parts := add_filter "admin-org-name" (admin_org a) parts in
  let parts := add_filter "admin-org-short-name" (admin_org_short a) parts in
  let parts := add_filter "status" (status a) parts in
  let parts := add_filter "year-from" (year_from a) parts in
  let parts := add_filter "year-to" (year_to a) parts in
  let parts := add_filter "funding-from" (funding_from a) parts in
  let parts := add_filter "funding-to" (funding_to a) parts in
  let parts := add_filter "fellowships-only" (fellowships_only a) parts in
  let parts := add_filter "lief-register" (lief_register a) parts in
  let parts := add_filter "four-digit-for" (four_digit_for a) parts in
  let parts := add_filter "two-digit-for" (two_digit_for a) parts in
  parts.

Definition build_filter_query (a : filter_args) : string :=
  let filter_query := default EmptyString (search_text a) in
  let parts := filter_parts a in
  match filter_query, parts with
  | String _ _, _ :: _ =>
      filter_query +:+ " => (" +:+ join " AND " parts +:+ ")"
  | _, _ :: _ => "=> (" +:+ join " AND " parts +:+ ")"
  | _, [] => filter_query
  end.

(** The criteria as the specification lists them: canonical field name and
    supplied value, in the documented order. *)
Definition criteria (a : filter_args) : list (string * option string) :=
  [ ("scheme", scheme a);
    ("admin-org-name", admin_org a);
    ("admin-org-short-name", admin_org_short a);
    ("status", status a);
    ("year-from", year_from a);
    ("year-to", year_to a);
    ("funding-from", funding_from a);
    ("funding-to", funding_to a);
    ("fellowships-only", fellowships_only a);
    ("lief-register", lief_register a);
    ("four-digit-for", four_digit_for a);
    ("two-digit-for", two_digit_for a) ].

(** A criterion is present when a non-empty value was supplied for it. *)
Definition present (c : string * option string) : bool := truthy_str (snd c).

(** The rendering [field-name="value"] of a present criterion. *)
Definition rendered (c : string * option string) : string :=
  fst c +:+ "=" +:+ dquote +:+ default EmptyString (snd c) +:+ dquote.

(** The output rule of the specification, on a text and a clause list. *)
Definition join_rule (text : string) (clauses : list string) : string :=
  match negb (String.eqb text EmptyString), negb (Nat.eqb (length clauses) 0) with
  | true, true => text +:+ " => (" +:+ join " AND " clauses +:+ ")"
  | false, true => "=> (" +:+ join " AND " clauses +:+ ")"
  | true, false => text
  | false, false => EmptyString
  end.

(** The canonical field names, in the documented order. *)
Definition field_order : list string :=
  [ "scheme"; "admin-org-name"; "admin-org-short-name"; "status";
    "year-from"; "year-to"; "funding-from"; "funding-to";
    "fellowships-only"; "lief-register"; "four-digit-for"; "two-digit-for" ].

(** ** Dictionaries, grant records and page documents *)

(** [d.get(k)] on a dictionary kept as an association list. *)
Fixpoint dict_get {V : Type} (k : string) (d : list (string * V)) : option V :=
  match d with
  | [] => None
  | (k', v) :: rest => if decide (k = k') then Some v else dict_get k rest
  end.

(** [d[k] = v]: an existing key keeps its position, a new key goes last. *)
Fixpoint dict_set {V : Type} (k : string) (v : V) (d : list (string * V))
    : list (string * V) :=
  match d with
  | [] => [(k, v)]
  | (k', v') :: rest =>
      if decide (k = k') then (k, v) :: rest else (k', v') :: dict_set k v rest
  end.

(** A well-formed dictionary has no key twice. *)
Definition dict_wf {V : Type} (d : list (string * V)) : Prop := NoDup d.*1.

(** A grant record is a JSON object read through two keys: ["id"] (a string,
    possibly absent) and ["attributes"] (a mapping, possibly absent). *)
Record grant : Type := Grant {
  grant_id : option string;
  grant_attributes : option (list (string * json))
}.

(** [grant.get("id", "")]. *)
Definition id_or_empty (g : grant) : string := default EmptyString (grant_id g).

(** The body of a page response: a JSON object read through ["data"],
    ["meta"] and ["links"], each possibly absent. *)
Record page_doc : Type := PageDoc {
  doc_data : option (list grant);
  doc_meta : option (list (string * json));
  doc_links : option (list (string * json))
}.

(** Truth value of a Python object that came out of JSON. *)
Definition py_truthy (v : json) : bool :=
  match v with
  | JNull => false
  | JBool b => b
  | JInt n => negb (n =? 0)
  | JFloat (S754_zero _) => false
  | JFloat _ => true
  | JStr s => negb (String.eqb s EmptyString)
  | JList items => negb (Nat.eqb (length items) 0)
  | JDict members => negb (Nat.eqb (length members) 0)
  end.

(** ** The HTTP collaborator *)

(** The query parameters of one request ([params] before URL encoding). *)
Record request : Type := Request {
  param_page_size : Z;
  param_page_number : Z;
  param_filter : option string
}.

(** What [requests.get] hands back.  [error_text] is the text of the
    exception that [raise_for_status] or [json] raises for this response,
    when one of them does; [json_body] is [None] when the body does not
    decode. *)
Record response : Type := Response {
  status_code : Z;
  error_text : string;
  json_body : option page_doc
}.

(** Either no response at all ([requests.get] itself raises a
    [RequestException], e.g. a connection error) or a response. *)
Inductive http_result : Type :=
  | NoResponse (error : string)
  | Responded (r : response).

(** [response.raise_for_status()] raises for 4xx and 5xx. *)
Definition raises_for_status (r : response) : bool :=
  (400 <=? status_code r) && (status_code r <? 600).

(** Exceptions that leave [fetch_grants]. *)
Inductive exn : Type :=
  | UnboundLocalError (variable : string).

(** The records of a page; none when it has no ["data"]. *)
Definition page_records (doc : page_doc) : list grant :=
  default [] (doc_data doc).

(** Stand-ins for the two library functions on which the examples are run:
    [repr] of a float or container as a fixed text, and [json.dumps] for
    documents without floats and without characters that need escaping. *)
Definition example_repr (v : json) : string := "<object>".

Fixpoint example_dumps (v : json) : string :=
  match v with
  | JNull => "null"
  | JBool true => "true"
  | JBool false => "false"
  | JInt n => pretty n
  | JFloat _ => "0.0"
  | JStr s => dquote +:+ s +:+ dquote
  | JList items => "[" +:+ join ", " (map example_dumps items) +:+ "]"
  | JDict members =>
      "{" +:+ join ", " (map (λ kv, dquote +:+ fst kv +:+ dquote +:+ ": "
                                    +:+ example_dumps (snd kv)) members)
      +:+ "}"
  end.

(** ** Paginated fetcher ([fetch_grants]) *)

Section Pipeline.

(** Library functions that are not part of the program: [repr] of a float or
    a container, and [json.dumps]. *)
Variable py_repr : json → string.
Variable json_dumps : json → string.

(** [str(v)], as used by f-strings and by the csv writer. *)
Definition py_str (v : json) : string :=
  match v with
  | JNull => "None"
  | JBool true => "True"
  | JBool false => "False"
  | JInt n => pretty n
  | JStr s => s
  | JFloat _ | JList _ | JDict _ => py_repr v
  end.

(** The local variables of [fetch_grants] that live across iterations, the
    attribute [self.results], and what has been printed. *)
Record fetch_state : Type := FetchState {
  st_results : list grant;
  st_page : Z;
  st_total_pages : json;
  st_response : option response;
  st_out : list string
}.

Definition print (line : string) (s : fetch_state) : fetch_state :=
  FetchState (st_results s) (st_page s) (st_total_pages s) (st_response s)
             (st_out s ++ [line]).

Definition bind_response (r : response) (s : fetch_state) : fetch_state :=
  FetchState (st_results s) (st_page s) (st_total_pages s) (Some r) (st_out s).

Definition extend_results (records : list grant) (s : fetch_state) : fetch_state :=
  FetchState (st_results s ++ records) (st_page s) (st_total_pages s)
             (st_response s) (st_out s).

Definition set_total_pages (t : json) (s : fetch_state) : fetch_state :=
  FetchState (st_results s) (st_page s) t (st_response s) (st_out s).

Definition next_page (s : fetch_state) : fetch_state :=
  FetchState (st_results s) (st_page s + 1) (st_total_pages s) (st_response s)
             (st_out s).

(** How one pass through the loop body ends. *)
Inductive control : Type :=
  | Continue (s : fetch_state)
  | Break (s : fetch_state)
  | Escapes (e : exn) (s : fetch_state).

(** The [except requests.RequestException as e] handler.  It reads the local
    variable [response], which is bound only if some [requests.get] call has
    returned. *)
Definition except_handler (e_text : string) (s : fetch_state) : control :=
  let s := print ("Error fetching page " +:+ pretty (st_page s) +:+ ": " +:+ e_text) s in
  match st_response s with
  | None => Escapes (UnboundLocalError "response") s
  | Some r =>
      let code := status_code r in
      if (code =? 401) || (code =? 403) then
        Break (print "Authentication error or API access denied." s)
      else if code =? 500 then
        Break (print "Server error. Check your query parameters." s)
      else
        Break (print ("HTTP error: " +:+ pretty code) s)
  end.

(** The diagnostic the handler prints for a status code. *)
Definition status_diagnostic (code : Z) : string :=
  if (code =? 401) || (code =? 403) then "Authentication error or API access denied."
  else if code =? 500 then "Server error. Check your query parameters."
  else "HTTP error: " +:+ pretty code.

(** [if total_pages is None and "meta" in data: ...]. *)
Definition update_pagination (data : page_doc) (s : fetch_state) : fetch_state :=
  match st_total_pages s, doc_meta data with
  | JNull, Some meta =>
      let total := default (JInt 1) (dict_get "total-pages" meta) in
      let size := default (JInt 0) (dict_get "total-size" meta) in
      print ("Found " +:+ py_str size +:+ " grants across " +:+ py_str total
             +:+ " pages")
            (set_total_pages total s)
  | _, _ => s
  end.

(** ["links" not in data or "next" not in data["links"] or
    not data["links"]["next"]]. *)
Definition no_next_link (data : page_doc) : bool :=
  match doc_links data with
  | None => true
  | Some links =>
      match dict_get "next" links with
      | None => true
      | Some next => negb (py_truthy next)
      end
  end.

(** [max_pages and page >= max_pages]. *)
Definition reached_max (max_pages : option Z) (page : Z) : bool :=
  match max_pages with
  | None => false
  | Some m => negb (m =? 0) && (m <=? page)
  end.

(** The state after a served page has been taken in: the response is
    bound, the records are appended, the page counters are read. *)
Definition absorbed (r : response) (doc : page_doc) (s : fetch_state)
    : fetch_state :=
  update_pagination doc (extend_results (page_records doc) (bind_response r s)).

(** The line printed when the loop stops after a page without failure. *)
Definition stop_line (max_pages : option Z) (page : Z) (doc : page_doc) : string :=
  if no_next_link doc then "Reached end of results at page " +:+ pretty page
  else "Reached maximum requested pages (" +:+ pretty (default 0 max_pages) +:+ ")".

Section Fetch.

Variable server : request → http_result.
Variable filter_query : option string.
Variable page_size : Z.
Variable max_pages : option Z.

Definition build_params (page : Z) : request :=
  Request (Z.min page_size 1000) page
          (if truthy_str filter_query then filter_query else None).

(** One pass through the body of [while True]. *)
Definition loop_body (s : fetch_state) : control :=
  match server (build_params (st_page s)) with
  | NoResponse e_text => except_handler e_text s
  | Responded r =>
      let s := bind_response r s in
      if raises_for_status r then except_handler (error_text r) s
      else
        match json_body r with
        | None => except_handler (error_text r) s
        | Some data =>
            match doc_data data with
            | None => Break (print "No data found in response." s)
            | Some records =>
                let s := extend_results records s in
                let s := update_pagination data s in
                if no_next_link data then
                  Break (print ("Reached end of results at page "
                                +:+ pretty (st_page s)) s)
                else if reached_max max_pages (st_page s) then
                  Break (print ("Reached maximum requested pages ("
                                +:+ pretty (default 0 max_pages) +:+ ")") s)
                else
                  let s := next_page s in
                  Continue (print ("Fetching page " +:+ pretty (st_page s) +:+ "/"
                                   +:+ py_str (st_total_pages s) +:+ "...") s)
            end
        end
  end.

(** How a call ends: it returns [self.results], or an exception leaves it.
    In both cases [self.results] and the printed lines are recorded. *)
Inductive outcome : Type :=
  | Returns (results : list grant) (out : list string)
  | Propagates (e : exn) (results : list grant) (out : list string).

(** The loop, bounded by [fuel] passes; [None] when the bound is hit. *)
Fixpoint fetch_loop (fuel : nat) (s : fetch_state) : option outcome :=
  match fuel with
  | O => None
  | S fuel' =>
      match loop_body s with
      | Continue s' => fetch_loop fuel' s'
      | Break s' =>
          let s' := print ("Total grants fetched: "
                           +:+ pretty (Z.of_nat (length (st_results s')))) s' in
          Some (Returns (st_results s') (st_out s'))
      | Escapes e s' => Some (Propagates e (st_results s') (st_out s'))
      end
  end.

Definition initial_state : fetch_state :=
  FetchState [] 1 JNull None ["Fetching data from ARC Grants API..."].

Definition fetch_grants (fuel : nat) : option outcome :=
  fetch_loop fuel initial_state.

(** The request for page [n] is answered with a response that neither
    [raise_for_status] nor [json] rejects, and whose body is [doc]. *)
Definition served (n : Z) (doc : page_doc) : Prop :=
  ∃ r, server (build_params n) = Responded r
       ∧ raises_for_status r = false
       ∧ json_body r = Some doc.

(** [docs] is the sequence of pages the server has, from page [first] on:
    each is served in its turn and carries a [data] array. *)
Definition serves_from (first : Z) (docs : list page_doc) : Prop :=
  ∀ i doc, docs !! i = Some doc →
    served (first + Z.of_nat i) doc ∧ is_Some (doc_data doc).

(** The whole result set: pages 1, 2, ... of which the last, and only the
    last, has no next link. *)
Definition serves_pages (docs : list page_doc) : Prop :=
  docs ≠ []
  ∧ serves_from 1 docs
  ∧ ∀ i doc, docs !! i = Some doc →
      no_next_link doc = bool_decide (S i = length docs).

End Fetch.

(** ** Export schema: the sorted union of attribute keys *)

(** [grant["attributes"].keys()], nothing when the key is absent. *)
Definition attribute_keys (g : grant) : list string :=
  match grant_attributes g with
  | Some attrs => attrs.*1
  | None => []
  end.

(** [fieldnames = set(); for grant in results: fieldnames.update(...)]. *)
Definition collect_fieldnames (results : list grant) : gset string :=
  foldl (λ fieldnames g, fieldnames ∪ list_to_set (attribute_keys g)) ∅ results.

(** The order of [sorted] on strings. *)
Definition string_le (a b : string) : Prop := String.leb a b = true.

#[local] Instance string_le_dec (a b : string) : Decision (string_le a b) :=
  decide (String.leb a b = true).

Definition sorted_fieldnames (results : list grant) : list string :=
  merge_sort string_le (elements (collect_fieldnames results)).

(** Lists and mappings become JSON text, everything else is kept. *)
Definition export_value (value : json) : json :=
  match value with
  | JList _ | JDict _ => JStr (json_dumps value)
  | _ => value
  end.

(** ** Files *)

Inductive sqlvalue : Type :=
  | SqlNull
  | SqlInteger (n : Z)
  | SqlReal (f : spec_float)
  | SqlText (s : string).

(** A column as [CREATE TABLE] declares it. *)
Record column_def : Type := ColumnDef {
  col_name : string;
  col_type : string;
  col_primary_key : bool
}.

(** A table: its columns and its rows, each row aligned with the columns. *)
Record table : Type := Table {
  table_columns : list column_def;
  table_rows : list (list sqlvalue)
}.

(** A file is CSV text, kept as rows of field texts, or a database, kept as
    its tables under their lower-cased names. *)
Inductive file : Type :=
  | CsvFile (rows : list (list string))
  | DatabaseFile (db : gmap string table).

(** The file system: the files, and for each path the error text with which
    opening it for writing fails, if it does. *)
Record filesystem : Type := FileSystem {
  files : gmap string file;
  open_error : string → option string
}.

Definition write_file (path : string) (f : file) (fs : filesystem) : filesystem :=
  FileSystem (<[path := f]> (files fs)) (open_error fs).

(** The object [self]. *)
Record api : Type := Api { results : list grant }.

(** What an exporter leaves behind: its return value, [self], the file
    system and the printed lines. *)
Record export_result : Type := ExportResult {
  ok : bool;
  self_after : api;
  fs_after : filesystem;
  out : list string
}.

(** ** CSV exporter ([export_to_csv]) *)

(** The text the csv writer puts in a field: nothing for [None], [str]
    otherwise. *)
Definition csv_field (v : json) : string :=
  match v with
  | JNull => EmptyString
  | _ => py_str v
  end.

Definition csv_fieldnames (results : list grant) : list string :=
  "id" :: sorted_fieldnames results.

(** The dictionary [row] built for one grant. *)
Definition csv_row (g : grant) : list (string * json) :=
  let row := [("id", JStr (id_or_empty g))] in
  match grant_attributes g with
  | Some attrs =>
      foldl (λ row kv, dict_set kv.1 (export_value kv.2) row) row attrs
  | None => row
  end.

(** [DictWriter.writerow]: a key outside [fieldnames] raises [ValueError];
    a missing key is written as the empty string. *)
Definition writerow (fieldnames : list string) (row : list (string * json))
    : string + list string :=
  if forallb (λ k, bool_decide (k ∈ fieldnames)) row.*1 then
    inr (map (λ k, csv_field (default (JStr EmptyString) (dict_get k row)))
             fieldnames)
  else inl "dict contains fields not in fieldnames".

(** The loop over the grants; on an exception the rows already written
    stay in the file. *)
Fixpoint write_rows (fieldnames : list string) (gs : list grant)
    (written : list (list string)) : list (list string) * option string :=
  match gs with
  | [] => (written, None)
  | g :: rest =>
      match writerow fieldnames (csv_row g) with
      | inr fields => write_rows fieldnames rest (written ++ [fields])
      | inl e_text => (written, Some e_text)
      end
  end.

Definition export_to_csv (self : api) (filename : string) (fs : filesystem)
    : export_result :=
  match results self with
  | [] => ExportResult false self fs ["No results to export."]
  | _ :: _ =>
      match open_error fs filename with
      | Some e_text =>
          ExportResult false self fs ["Error exporting to CSV: " +:+ e_text]
      | None =>
          let fieldnames := csv_fieldnames (results self) in
          let '(rows, failure) :=
            write_rows fieldnames (results self) [fieldnames] in
          let fs := write_file filename (CsvFile rows) fs in
          match failure with
          | Some e_text =>
              ExportResult false self fs ["Error exporting to CSV: " +:+ e_text]
          | None =>
              ExportResult true self fs
                ["Exported " +:+ pretty (Z.of_nat (length (results self)))
                 +:+ " grants to " +:+ filename]
          end
      end
  end.




(** ** The storage engine

    A model of the part of SQLite that the exporter drives through
    [sqlite3]: one statement at a time against the tables of a database.
    Identifiers are compared without regard to ASCII case.  Stored values
    are the bound values (no affinity conversion). *)

Definition ascii_lower (c : ascii) : ascii :=
  let n := N_of_ascii c in
  if ((65 <=? n) && (n <=? 90))%N then ascii_of_N (n + 32) else c.

Fixpoint str_lower (s : string) : string :=
  match s with
  | EmptyString => EmptyString
  | String c rest => String (ascii_lower c) (str_lower rest)
  end.

(** The statements the exporter issues, with their parameters. *)
Inductive statement : Type :=
  | DropTableIfExists (name : string)
  | CreateTable (name : string) (columns : list column_def)
  | InsertInto (name : string) (columns : list string) (params : list json).

#[local] Instance spec_float_eq_dec : EqDecision spec_float.
Proof. solve_decision. Defined.

#[local] Instance sqlvalue_eq_dec : EqDecision sqlvalue.
Proof. solve_decision. Defined.

(** How [sqlite3] binds a Python object to a [?] placeholder. *)
Definition bind_param (v : json) : string + sqlvalue :=
  match v with
  | JNull => inr SqlNull
  | JBool b => inr (SqlInteger (if b then 1 else 0))
  | JInt n =>
      if (- 2 ^ 63 <=? n) && (n <? 2 ^ 63) then inr (SqlInteger n)
      else inl "Python int too large to convert to SQLite INTEGER"
  | JFloat S754_nan => inr SqlNull
  | JFloat f => inr (SqlReal f)
  | JStr s => inr (SqlText s)
  | JList _ | JDict _ => inl "Error binding parameter: type is not supported"
  end.

Fixpoint bind_params (vs : list json) : string + list sqlvalue :=
  match vs with
  | [] => inr []
  | v :: rest =>
      match bind_param v, bind_params rest with
      | inl e, _ => inl e
      | _, inl e => inl e
      | inr x, inr xs => inr (x :: xs)
      end
  end.

(** The first name that occurs twice in a list, if any. *)
Fixpoint first_duplicate (names : list string) : option string :=
  match names with
  | [] => None
  | n :: rest =>
      if bool_decide (n ∈ rest) then Some n else first_duplicate rest
  end.

(** The first name of [names] that is not in [known], if any. *)
Definition first_unknown (known names : list string) : option string :=
  head (filter (λ n, n ∉ known) names).

(** The value an insert gives to the column [column]: the parameter bound
    to the first listed column of that name, [NULL] when there is none. *)
Definition inserted_value (columns : list string) (values : list sqlvalue)
    (column : string) : sqlvalue :=
  default SqlNull
    (dict_get (str_lower column) (zip (str_lower <$> columns) values)).

(** A new row violates a primary key when its value in the key column is
    not [NULL] and some stored row has the same value there. *)
Definition violates_key (columns : list column_def) (rows : list (list sqlvalue))
    (row : list sqlvalue) : bool :=
  existsb
    (λ i,
       match columns !! i, row !! i with
       | Some c, Some v =>
           col_primary_key c && negb (bool_decide (v = SqlNull))
           && existsb (λ r, bool_decide (r !! i = Some v)) rows
       | _, _ => false
       end)
    (seq 0 (length columns)).

(** The effect of one statement on the tables, or the error text. *)
Definition engine_exec (s : statement) (db : gmap string table)
    : string + gmap string table :=
  match s with
  | DropTableIfExists name => inr (delete (str_lower name) db)
  | CreateTable name columns =>
      match db !! str_lower name with
      | Some _ => inl ("table " +:+ name +:+ " already exists")
      | None =>
          match first_duplicate (str_lower <$> (col_name <$> columns)) with
          | Some n => inl ("duplicate column name: " +:+ n)
          | None =>
              if (1 <? length (filter (λ c, col_primary_key c = true) columns))%nat
              then inl ("table " +:+ dquote +:+ name +:+ dquote
                        +:+ " has more than one primary key")
              else inr (<[str_lower name := Table columns []]> db)
          end
      end
  | InsertInto name columns params =>
      match db !! str_lower name with
      | None => inl ("no such table: " +:+ name)
      | Some t =>
          let known := str_lower <$> (col_name <$> table_columns t) in
          match first_unknown known (str_lower <$> columns) with
          | Some n => inl ("table " +:+ name +:+ " has no column named " +:+ n)
          | None =>
              match bind_params params with
              | inl e => inl e
              | inr values =>
                  let row :=
                    inserted_value columns values <$> (col_name <$> table_columns t) in
                  if violates_key (table_columns t) (table_rows t) row
                  then inl ("UNIQUE constraint failed: " +:+ name +:+ ".id")
                  else inr (<[str_lower name :=
                                Table (table_columns t) (table_rows t ++ [row])]> db)
              end
          end
      end
  end.

(** A connection: the tables as committed to the file, the tables as the
    connection sees them, whether a transaction is open, and the statements
    passed to [cursor.execute] so far. *)
Record connection : Type := Connection {
  conn_committed : gmap string table;
  conn_working : gmap string table;
  conn_in_transaction : bool;
  conn_executed : list statement
}.

Definition connect (db : gmap string table) : connection :=
  Connection db db false [].

(** [cursor.execute]: [sqlite3] opens a transaction before an [INSERT];
    other statements take effect at once when no transaction is open. *)
Definition execute (s : statement) (c : connection) : connection * option string :=
  let executed := conn_executed c ++ [s] in
  match engine_exec s (conn_working c) with
  | inl e =>
      (Connection (conn_committed c) (conn_working c) (conn_in_transaction c)
                  executed, Some e)
  | inr db =>
      match s with
      | InsertInto _ _ _ => (Connection (conn_committed c) db true executed, None)
      | _ =>
          if conn_in_transaction c
          then (Connection (conn_committed c) db true executed, None)
          else (Connection db db false executed, None)
      end
  end.

(** [conn.commit()]. *)
Definition commit (c : connection) : connection :=
  Connection (conn_working c) (conn_working c) false (conn_executed c).

(** ** Table exporter ([export_to_sqlite]) *)

(** [isinstance(value, (int, float))]; [bool] is a subclass of [int]. *)
Definition is_int_or_float (value : json) : bool :=
  match value with
  | JBool _ | JInt _ | JFloat _ => true
  | _ => false
  end.

Definition is_none (value : json) : bool :=
  match value with
  | JNull => true
  | _ => false
  end.

(** The inner [for grant in self.results] loop that sets [field_type]: it
    starts from TEXT and ends as soon as a grant has a value for [field]
    that is not [None] and is an [int] or a [float]. *)
Fixpoint guess_field_type (field : string) (results : list grant) : string :=
  match results with
  | [] => "TEXT"
  | g :: rest =>
      match grant_attributes g with
      | Some attrs =>
          match dict_get field attrs with
          | Some value =>
              if negb (is_none value) then
                if is_int_or_float value then "REAL"
                else guess_field_type field rest
              else guess_field_type field rest
          | None => guess_field_type field rest
          end
      | None => guess_field_type field rest
      end
  end.

(** [s.replace(old, new)] for one-character [old] and [new]. *)
Fixpoint str_replace_char (old new : ascii) (s : string) : string :=
  match s with
  | EmptyString => EmptyString
  | String c rest =>
      String (if Ascii.eqb c old then new else c) (str_replace_char old new rest)
  end.

(** [field.replace("-", "_")]. *)
Definition safe_field (field : string) : string :=
  str_replace_char "-" "_" field.

(** The list [fields] of column declarations, as text. *)
Definition sqlite_fields (results : list grant) : list string :=
  "id TEXT PRIMARY KEY"
  :: map (λ field, safe_field field +:+ " " +:+ guess_field_type field results)
         (sorted_fieldnames results).

(** The same declarations as the engine reads them. *)
Definition sqlite_columns (results : list grant) : list column_def :=
  ColumnDef "id" "TEXT" true
  :: map (λ field,
            ColumnDef (safe_field field) (guess_field_type field results) false)
         (sorted_fieldnames results).

(** The dictionary [values] built for one grant. *)
Definition insert_values (g : grant) : list (string * json) :=
  let values := [("id", JStr (id_or_empty g))] in
  match grant_attributes g with
  | Some attrs =>
      foldl (λ values kv, dict_set (safe_field kv.1) (export_value kv.2) values)
            values attrs
  | None => values
  end.


Definition insert_statement (g : grant) : statement :=
  InsertInto "grants" (insert_values g).*1 (insert_values g).*2.

(** The SQL text of a statement. *)
Definition column_sql (c : column_def) : string :=
  col_name c +:+ " " +:+ col_type c
  +:+ (if col_primary_key c then " PRIMARY KEY" else EmptyString).

Definition statement_sql (s : statement) : string :=
  match s with
  | DropTableIfExists name => "DROP TABLE IF EXISTS " +:+ name
  | CreateTable name columns =>
      "CREATE TABLE " +:+ name +:+ " (" +:+ join ", " (column_sql <$> columns) +:+ ")"
  | InsertInto name columns params =>
      "INSERT INTO " +:+ name +:+ " ("
      +:+ join ", " (map (λ col, "`" +:+ col +:+ "`") columns)
      +:+ ") VALUES (" +:+ join ", " (map (λ _, "?") params) +:+ ")"
  end.

(** The insert loop: the first failing statement ends it. *)
Fixpoint insert_all (gs : list grant) (c : connection) : connection * option string :=
  match gs with
  | [] => (c, None)
  | g :: rest =>
      match execute (insert_statement g) c with
      | (c', None) => insert_all rest c'
      | failed => failed
      end
  end.

(** The statements between [connect] and [close]. *)
Definition sqlite_body (results : list grant) (c : connection)
    : connection * option string :=
  match execute (DropTableIfExists "grants") c with
  | (c, None) =>
      match execute (CreateTable "grants" (sqlite_columns results)) c with
      | (c, None) =>
          match insert_all results c with
          | (c, None) => (commit c, None)
          | failed => failed
          end
      | failed => failed
      end
  | failed => failed
  end.

(** The database [sqlite3.connect] finds at a path: a new empty one when
    there is no file or the file is empty, none when the file is not a
    database. *)
Definition database_at (fs : filesystem) (path : string)
    : option (gmap string table) :=
  match files fs !! path with
  | None => Some ∅
  | Some (CsvFile []) => Some ∅
  | Some (CsvFile (_ :: _)) => None
  | Some (DatabaseFile db) => Some db
  end.

Definition export_to_sqlite (self : api) (filename : string) (fs : filesystem)
    : export_result :=
  match results self with
  | [] => ExportResult false self fs ["No results to export."]
  | _ :: _ =>
      match open_error fs filename with
      | Some e_text =>
          ExportResult false self fs ["Error exporting to SQLite: " +:+ e_text]
      | None =>
          match database_at fs filename with
          | None =>
              ExportResult false self fs
                ["Error exporting to SQLite: file is not a database"]
          | Some db =>
              let '(c, failure) := sqlite_body (results self) (connect db) in
              let fs := write_file filename (DatabaseFile (conn_committed c)) fs in
              match failure with
              | Some e_text =>
                  ExportResult false self fs
                    ["Error exporting to SQLite: " +:+ e_text]
              | None =>
                  ExportResult true self fs
                    ["Exported " +:+ pretty (Z.of_nat (length (results self)))
                     +:+ " grants to SQLite database: " +:+ filename]
              end
          end
      end
  end.

(** ** The export step of [main] *)

Definition main_export (self : api) (csv sqlite : string) (fs : filesystem)
    : api * filesystem * list string :=
  match results self with
  | _ :: _ =>
      let r1 := export_to_csv self csv fs in
      let r2 := export_to_sqlite (self_after r1) sqlite (fs_after r1) in
      (self_after r2, fs_after r2,
       out r1 ++ out r2
       ++ ["Export complete. Files saved as " +:+ csv +:+ " and " +:+ sqlite])
  | [] => (self, fs, ["No results found. Nothing exported."])
  end.


(** Some stored row has the text [s] in the first column, the key column
    of the table of a run. *)
Definition stores_id (rows : list (list sqlvalue)) (s : string) : Prop :=
  ∃ row, row ∈ rows ∧ row !! 0%nat = Some (SqlText s).


(** ** Sample data *)

(** Two records: the first with a list-valued attribute, both with a
    hyphenated key. *)
Definition grant_a : grant :=
  Grant (Some "A")
        (Some [("scheme-name", JStr "X"); ("tags", JList [JStr "a"; JStr "b"])]).

Definition grant_b : grant :=
  Grant (Some "B") (Some [("scheme-name", JStr "Y")]).



(** Records whose attribute [x] is first a text, then a number. *)
Definition grant_text : grant := Grant (Some "A") (Some [("x", JStr "abc")]).
Definition grant_number : grant := Grant (Some "B") (Some [("x", JInt 5)]).

(** A result set of two pages. *)
Definition page_one : page_doc :=
  PageDoc (Some [grant_a])
          (Some [("total-size", JInt 2); ("total-pages", JInt 2)])
          (Some [("next", JStr "grants?page[number]=2")]).

Definition page_two : page_doc :=
  PageDoc (Some [grant_b])
          (Some [("total-size", JInt 2); ("total-pages", JInt 2)])
          (Some [("next", JNull)]).

Definition two_page_server (req : request) : http_result :=
  if param_page_number req =? 1 then Responded (Response 200 EmptyString (Some page_one))
  else if param_page_number req =? 2 then Responded (Response 200 EmptyString (Some page_two))
  else Responded (Response 404 "404 Client Error: Not Found" None).

(** A server that cannot be reached. *)
Definition unreachable_server (req : request) : http_result :=
  NoResponse "Connection refused".

(** A file system with no files, on which every path can be written. *)
Definition empty_disk : filesystem := FileSystem ∅ (λ _, None).

(** ** The rest of [main]: output names and the pipeline *)

(** [s.replace(old, new)] for a non-empty [old]: occurrences are replaced
    from the left and do not overlap.  [skip] counts the characters of an
    occurrence just replaced that are still to be passed over. *)
Fixpoint str_replace_from (old new : string) (skip : nat) (s : string) : string :=
  match s with
  | EmptyString => EmptyString
  | String c rest =>
      match skip with
      | S skip' => str_replace_from old new skip' rest
      | O =>
          if String.prefix old s
          then new +:+ str_replace_from old new (String.length old - 1) rest
          else String c (str_replace_from old new 0 rest)
      end
  end.

Definition str_replace (old new s : string) : string :=
  str_replace_from old new 0 s.

(** The parsed command line: the filter criteria, [--page-size] (100 when
    not given), [--max-pages], [--csv] and [--sqlite]. *)
Record cli_args : Type := CliArgs {
  arg_filter : filter_args;
  arg_page_size : Z;
  arg_max_pages : option Z;
  arg_csv : option string;
  arg_sqlite : option string
}.

(** The three statements that settle [args.csv] and [args.sqlite];
    [timestamp] is the text of [datetime.now().strftime(...)]. *)
Definition output_names (timestamp : string) (csv sqlite : option string)
    : option string * option string :=
  let csv :=
    if negb (truthy_str csv) && negb (truthy_str sqlite)
    then Some ("results/arc_grants_" +:+ timestamp +:+ ".csv")
    else csv in
  let sqlite :=
    if negb (truthy_str sqlite) && truthy_str csv
    then Some (str_replace ".csv" ".db" (default EmptyString csv))
    else sqlite in
  let csv :=
    if negb (truthy_str csv) && truthy_str sqlite
    then Some (str_replace ".db" ".csv" (default EmptyString sqlite))
    else csv in
  (csv, sqlite).

(** How [main] ends: it runs to its last line, or an exception leaves it. *)
Inductive main_outcome : Type :=
  | Completed (fs : filesystem) (out : list string)
  | Crashed (e : exn) (fs : filesystem) (out : list string).

(** [main] after argument parsing, on a server and a file system; [None]
    when the fetch loop hits the bound [fuel]. *)
Definition main (args : cli_args) (timestamp : string)
    (server : request → http_result) (fs : filesystem) (fuel : nat)
    : option main_outcome :=
  let '(csv, sqlite) := output_names timestamp (arg_csv args) (arg_sqlite args) in
  let filter_query := build_filter_query (arg_filter args) in
  let said :=
    if truthy_str (Some filter_query)
    then ["Using filter query: " +:+ filter_query] else [] in
  match fetch_grants server (Some filter_query) (arg_page_size args)
          (arg_max_pages args) fuel with
  | None => None
  | Some (Propagates e _ out) => Some (Crashed e fs (said ++ out))
  | Some (Returns fetched out) =>
      let '(_, fs', out') :=
        main_export (Api fetched) (default EmptyString csv)
                    (default EmptyString sqlite) fs in
      Some (Completed fs' (said ++ out ++ out'))
  end.

(** The records are pairwise distinct in their ids. *)
Definition distinct_ids (rs : list grant) : Prop := NoDup (id_or_empty <$> rs).

(** Two attribute keys of the records get the same column name, or one gets
    the name of the key column: the names compared as the engine does. *)
Definition column_clash (rs : list grant) : Prop :=
  ¬ NoDup (str_lower <$> ("id" :: (safe_field <$> sorted_fieldnames rs))).

(** The row an insert statement gives the table for one record: each
    declared column gets the value bound for it; none when a parameter
    cannot be bound. *)
Definition sqlite_row (columns : list column_def) (g : grant)
    : option (list sqlvalue) :=
  match bind_params (insert_values g).*2 with
  | inr values =>
      Some (inserted_value (insert_values g).*1 values <$> (col_name <$> columns))
  | inl _ => None
  end.

(** The value stored for an attribute of a record: the bound export value,
    [NULL] when the record lacks the attribute. *)
Definition stored_cell (g : grant) (key : string) : string + sqlvalue :=
  match grant_attributes g ≫= dict_get key with
  | Some value => bind_param (export_value value)
  | None => inr SqlNull
  end.

(** The file system [main] leaves, however it ends. *)
Definition fs_left (o : main_outcome) : filesystem :=
  match o with
  | Completed fs _ => fs
  | Crashed _ fs _ => fs
  end.

(** ** More sample data *)

(** A server that serves the first sample page and answers every later
    request with [later]. *)
Definition server_then (later : http_result) (req : request) : http_result :=
  if param_page_number req =? 1
  then Responded (Response 200 EmptyString (Some page_one))
  else later.

Definition server_error_response : response :=
  Response 500 "500 Server Error: Internal Server Error" None.

Definition undecodable_response : response :=
  Response 200 "Expecting value: line 1 column 1 (char 0)" None.

Definition no_data_response : response :=
  Response 200 EmptyString (Some (PageDoc None None None)).

(** A server that answers every request with a server error. *)
Definition broken_server (req : request) : http_result :=
  Responded server_error_response.

(** A command line with no filter and no output names, and one that names
    a CSV file without the [.csv] ending. *)
Definition plain_args : cli_args := CliArgs no_filter 100 None None None.

Definition text_file_args : cli_args :=
  CliArgs no_filter 100 None (Some "out.txt") None.

(** A file system whose file [out.db] is a database with a table of its
    own. *)
Definition disk_with_database : filesystem :=
  FileSystem
    {[ "out.db" := DatabaseFile
                     {[ "notes" := Table [ColumnDef "body" "TEXT" false]
                                         [[SqlText "keep me"]] ]} ]}
    (λ _, None).

(** A record whose keys [a-b] and [a_b] get the same column name. *)
Definition grant_clashing : grant :=
  Grant (Some "C") (Some [("a-b", JInt 1); ("a_b", JInt 2)]).
(** ** Filter builder: properties *)

Lemma add_filter_snoc (field : string) (value : option string)
    (cs : list (string * option string)) :
  add_filter field value (map rendered (filter (λ c, present c = true) cs)) =
  map rendered (filter (λ c, present c = true) (cs ++ [(field, value)])).
Proof.
  rewrite filter_app, map_app, filter_cons, filter_nil.
  unfold add_filter.
  destruct (truthy_str value) eqn:Hv.
  - rewrite decide_True by exact Hv. reflexivity.
  - rewrite decide_False by (unfold present; simpl; congruence).
    simpl. now rewrite app_nil_r.
Qed.

Lemma filter_parts_criteria (a : filter_args) :
  filter_parts a = map rendered (filter (λ c, present c = true) (criteria a)).
Proof.
  unfold filter_parts.
  change (@nil string) with
    (map rendered (filter (λ c, present c = true) [])) at 1.
  rewrite !add_filter_snoc. reflexivity.
Qed.

(** ** The order on strings *)

Lemma string_compare_OT (a b : string) :
  String.compare a b = OrdersEx.String_as_OT.compare a b.
Proof.
  revert b. induction a as [|c a IH]; intros [|d b]; reflexivity.
Qed.

Lemma string_le_cases (a b : string) :
  string_le a b ↔ a = b ∨ OrdersEx.String_as_OT.lt a b.
Proof.
  unfold string_le, String.leb, OrdersEx.String_as_OT.lt.
  rewrite string_compare_OT.
  destruct (OrdersEx.String_as_OT.compare_spec a b) as [Heq|Hlt|Hgt].
  - split; [now left | reflexivity].
  - split; [now right | reflexivity].
  - split; [discriminate |].
    intros [-> | Hlt].
    + exfalso. eapply (irreflexivity OrdersEx.String_as_OT.lt); eassumption.
    + discriminate.
Qed.

#[local] Instance string_le_total : Total string_le.
Proof. intros a b. apply String.leb_total. Qed.

#[local] Instance string_le_trans : Transitive string_le.
Proof.
  intros a b c. rewrite !string_le_cases.
  intros [-> | Hab] [-> | Hbc]; auto.
  right. etransitivity; eassumption.
Qed.

#[local] Instance string_le_antisym : AntiSymm (=) string_le.
Proof. intros a b. apply String.leb_antisym. Qed.

(** ** Dictionaries *)

Lemma dict_get_Some_elem {V : Type} (k : string) (v : V) (d : list (string * V)) :
  dict_get k d = Some v → (k, v) ∈ d.
Proof.
  induction d as [|[k' v'] d IH]; simpl; [discriminate |].
  case_decide as Hk.
  - intros [= ->]. subst. left.
  - intros H. right. auto.
Qed.


Lemma dict_get_elem_wf {V : Type} (k : string) (v : V) (d : list (string * V)) :
  dict_wf d → (k, v) ∈ d → dict_get k d = Some v.
Proof.
  unfold dict_wf. induction d as [|[k' v'] d IH]; simpl.
  - intros _ H. inversion H.
  - intros Hnd Hin. apply NoDup_cons in Hnd as [Hk' Hnd].
    apply elem_of_cons in Hin as [[= -> ->] | Hin].
    + now rewrite decide_True.
    + rewrite decide_False; [auto |].
      intros ->. apply Hk'. apply list_elem_of_fmap. now exists (k', v).
Qed.



Lemma dict_set_keys {V : Type} (k k0 : string) (v : V) (d : list (string * V)) :
  k ∈ (dict_set k0 v d).*1 ↔ k = k0 ∨ k ∈ d.*1.
Proof.
  induction d as [|[k' v'] d IH]; simpl.
  - rewrite list_elem_of_singleton, elem_of_nil. tauto.
  - case_decide as Hk; simpl; rewrite !elem_of_cons.
    + subst. tauto.
    + rewrite IH. tauto.
Qed.

(** ** The export schema *)

Lemma collect_fieldnames_from (acc : gset string) (rs : list grant) (k : string) :
  k ∈ foldl (λ fieldnames g, fieldnames ∪ list_to_set (attribute_keys g)) acc rs
  ↔ k ∈ acc ∨ ∃ g, g ∈ rs ∧ k ∈ attribute_keys g.
Proof.
  revert acc. induction rs as [|g rs IH]; intros acc; simpl.
  - split; [now left | intros [H | (g & Hg & _)]; [done | inversion Hg]].
  - rewrite IH, elem_of_union, elem_of_list_to_set. split.
    + intros [[H | H] | (g' & Hg' & Hk)]; [now left | |].
      * right. exists g. split; [left | done].
      * right. exists g'. split; [now right | done].
    + intros [H | (g' & Hg' & Hk)]; [now left; left |].
      apply elem_of_cons in Hg' as [-> | Hg'].
      * left. now right.
      * right. now exists g'.
Qed.

Lemma elem_of_collect_fieldnames (rs : list grant) (k : string) :
  k ∈ collect_fieldnames rs ↔ ∃ g, g ∈ rs ∧ k ∈ attribute_keys g.
Proof.
  unfold collect_fieldnames. rewrite collect_fieldnames_from.
  split; [intros [H | H]; [set_solver | done] | now right].
Qed.

Lemma sorted_fieldnames_perm (rs : list grant) :
  sorted_fieldnames rs ≡ₚ elements (collect_fieldnames rs).
Proof. apply merge_sort_Permutation. Qed.

Lemma elem_of_sorted_fieldnames (rs : list grant) (k : string) :
  k ∈ sorted_fieldnames rs ↔ ∃ g, g ∈ rs ∧ k ∈ attribute_keys g.
Proof.
  rewrite sorted_fieldnames_perm, elem_of_elements.
  apply elem_of_collect_fieldnames.
Qed.



Lemma join_rule_both (text : string) (clauses : list string) :
  text ≠ EmptyString → clauses ≠ [] →
  join_rule text clauses = text +:+ " => (" +:+ join " AND " clauses +:+ ")".
Proof.
  intros Ht Hc. unfold join_rule.
  destruct text as [|c t]; [done |]. destruct clauses; [done |]. reflexivity.
Qed.

Lemma join_rule_criteria_only (clauses : list string) :
  clauses ≠ [] →
  join_rule EmptyString clauses = "=> (" +:+ join " AND " clauses +:+ ")".
Proof. intros Hc. destruct clauses; [done |]. reflexivity. Qed.

Lemma join_rule_text_only (text : string) : join_rule text [] = text.
Proof. destruct text; reflexivity. Qed.

Lemma build_filter_query_parts (a : filter_args) :
  build_filter_query a =
    join_rule (default EmptyString (search_text a)) (filter_parts a).
Proof.
  unfold build_filter_query.
  destruct (default EmptyString (search_text a)) as [|c t0];
    destruct (filter_parts a) as [|c0 cs]; reflexivity.
Qed.

(** C2.  For every free text and every choice of the twelve criteria, the
    builder returns what the output rule gives for the text (the empty
    string when none is supplied) and the clauses [field-name="value"] of
    the non-empty criteria: [text => (c1 AND ...)] when both are present,
    [=> (c1 AND ...)] when only criteria are, the text itself when only
    text is, and the empty string when neither is. *)
Theorem build_filter_query_join_rule (a : filter_args) :
  let text := default EmptyString (search_text a) in
  let clauses := map rendered (filter (λ c, present c = true) (criteria a)) in
  build_filter_query a = join_rule text clauses
  ∧ (text ≠ EmptyString → clauses ≠ [] →
     build_filter_query a = text +:+ " => (" +:+ join " AND " clauses +:+ ")")
  ∧ (text = EmptyString → clauses ≠ [] →
     build_filter_query a = "=> (" +:+ join " AND " clauses +:+ ")")
  ∧ (text ≠ EmptyString → clauses = [] → build_filter_query a = text)
  ∧ (text = EmptyString → clauses = [] → build_filter_query a = EmptyString).
Proof.
  intros text clauses.
  assert (Heq : build_filter_query a = join_rule text clauses).
  { rewrite build_filter_query_parts, filter_parts_criteria. reflexivity. }
  split; [exact Heq |]. rewrite Heq.
  repeat split.
  - apply join_rule_both.
  - intros -> Hc. now apply join_rule_criteria_only.
  - intros _ ->. apply join_rule_text_only.
  - intros -> ->. reflexivity.
Qed.

(** C10.  The clauses of the output are those of the supplied criteria
    taken in the one documented order (scheme, admin-org-name, ...,
    two-digit-for), whatever subset is supplied: the clause list is a
    subsequence of the twelve clauses in that order, and the output depends
    on nothing but the text and the criteria. *)
Theorem filter_clauses_fixed_order (a : filter_args) :
  (criteria a).*1 = field_order
  ∧ filter_parts a = map rendered (filter (λ c, present c = true) (criteria a))
  ∧ filter_parts a `sublist_of` map rendered (criteria a)
  ∧ build_filter_query a =
      join_rule (default EmptyString (search_text a)) (filter_parts a)
  ∧ ∀ b, search_text b = search_text a → criteria b = criteria a →
         build_filter_query b = build_filter_query a.
Proof.
  split; [reflexivity |].
  split; [apply filter_parts_criteria |].
  split.
  { rewrite filter_parts_criteria. apply fmap_sublist, sublist_filter. }
  split; [apply build_filter_query_parts |].
  intros b Ht Hc.
  rewrite !build_filter_query_parts, !filter_parts_criteria.
  now rewrite Ht, Hc.
Qed.

(** ** Paginated fetcher: properties *)

Lemma update_pagination_results (data : page_doc) (s : fetch_state) :
  st_results (update_pagination data s) = st_results s.
Proof.
  unfold update_pagination.
  destruct (st_total_pages s), (doc_meta data); reflexivity.
Qed.

Lemma update_pagination_page (data : page_doc) (s : fetch_state) :
  st_page (update_pagination data s) = st_page s.
Proof.
  unfold update_pagination.
  destruct (st_total_pages s), (doc_meta data); reflexivity.
Qed.

Lemma update_pagination_response (data : page_doc) (s : fetch_state) :
  st_response (update_pagination data s) = st_response s.
Proof.
  unfold update_pagination.
  destruct (st_total_pages s), (doc_meta data); reflexivity.
Qed.

Lemma update_pagination_out (data : page_doc) (s : fetch_state) :
  st_out s `prefix_of` st_out (update_pagination data s).
Proof.
  unfold update_pagination.
  destruct (st_total_pages s), (doc_meta data); simpl;
    try reflexivity; apply prefix_app_r; reflexivity.
Qed.

Lemma absorbed_results r doc s :
  st_results (absorbed r doc s) = st_results s ++ page_records doc.
Proof. unfold absorbed. now rewrite update_pagination_results. Qed.

Lemma absorbed_page r doc s : st_page (absorbed r doc s) = st_page s.
Proof. unfold absorbed. now rewrite update_pagination_page. Qed.

Lemma absorbed_response r doc s : st_response (absorbed r doc s) = Some r.
Proof. unfold absorbed. now rewrite update_pagination_response. Qed.

Lemma absorbed_out r doc s : st_out s `prefix_of` st_out (absorbed r doc s).
Proof.
  unfold absorbed.
  change (st_out s) with
    (st_out (extend_results (page_records doc) (bind_response r s))).
  apply update_pagination_out.
Qed.

Section FetchFacts.

Variable server : request → http_result.
Variable filter_query : option string.
Variable page_size : Z.
Variable max_pages : option Z.

#[local] Abbreviation body := (loop_body server filter_query page_size max_pages).
#[local] Abbreviation loop := (fetch_loop server filter_query page_size max_pages).

Lemma loop_body_served (s : fetch_state) (r : response) (doc : page_doc) :
  server (build_params filter_query page_size (st_page s)) = Responded r →
  raises_for_status r = false →
  json_body r = Some doc →
  is_Some (doc_data doc) →
  body s =
    let s1 := absorbed r doc s in
    if no_next_link doc || reached_max max_pages (st_page s) then
      Break (print (stop_line max_pages (st_page s) doc) s1)
    else
      let s2 := next_page s1 in
      Continue (print ("Fetching page " +:+ pretty (st_page s2) +:+ "/"
                       +:+ py_str (st_total_pages s2) +:+ "...") s2).
Proof.
  intros Hsrv Hst Hjs [records Hdata].
  unfold loop_body. rewrite Hsrv, Hst, Hjs, Hdata.
  unfold absorbed, page_records, stop_line. rewrite Hdata. simpl.
  rewrite !update_pagination_page. simpl.
  destruct (no_next_link doc); simpl; [reflexivity |].
  destruct (reached_max max_pages (st_page s)); reflexivity.
Qed.

(** A run of pages after each of which the loop goes on. *)
Lemma fetch_loop_continue (docs : list page_doc) (s : fetch_state) :
  serves_from server filter_query page_size (st_page s) docs →
  (∀ i doc, docs !! i = Some doc →
     no_next_link doc = false
     ∧ reached_max max_pages (st_page s + Z.of_nat i) = false) →
  ∃ s',
    (∀ fuel, loop (length docs + fuel)%nat s = loop fuel s')
    ∧ st_results s' = st_results s ++ concat (page_records <$> docs)
    ∧ st_page s' = st_page s + Z.of_nat (length docs)
    ∧ st_out s `prefix_of` st_out s'
    ∧ match docs with
      | [] => st_response s' = st_response s
      | _ :: _ => ∃ r, st_response s' = Some r ∧ raises_for_status r = false
      end.
Proof.
  revert s. induction docs as [|doc docs IH]; intros s Hsrv Hgo.
  - exists s. simpl. rewrite app_nil_r.
    repeat split; try reflexivity; lia.
  - destruct (Hsrv 0%nat doc eq_refl) as [(r & Hr & Hst & Hjs) Hdata].
    destruct (Hgo 0%nat doc eq_refl) as [Hnext Hmax].
    rewrite Z.add_0_r in Hr, Hmax.
    pose proof (loop_body_served s r doc Hr Hst Hjs Hdata) as Hbody.
    rewrite Hnext, Hmax in Hbody. simpl in Hbody.
    set (s1 := print _ (next_page (absorbed r doc s))) in Hbody.
    assert (Hp1 : st_page s1 = st_page s + 1).
    { unfold s1. simpl. now rewrite absorbed_page. }
    destruct (IH s1) as (s' & Hloop & Hres & Hpage & Hout & Hresp).
    + intros i d Hd. rewrite Hp1.
      replace (st_page s + 1 + Z.of_nat i) with (st_page s + Z.of_nat (S i)) by lia.
      now apply Hsrv.
    + intros i d Hd. rewrite Hp1.
      replace (st_page s + 1 + Z.of_nat i) with (st_page s + Z.of_nat (S i)) by lia.
      now apply Hgo.
    + exists s'. repeat split.
      * intros fuel. simpl. rewrite Hbody. apply Hloop.
      * rewrite Hres. unfold s1. simpl. rewrite absorbed_results.
        now rewrite <- app_assoc.
      * rewrite Hpage, Hp1. simpl length. lia.
      * etransitivity; [| exact Hout]. unfold s1. simpl.
        etransitivity; [apply (absorbed_out r doc s) |].
        apply prefix_app_r. reflexivity.
      * destruct docs as [|d docs]; [| exact Hresp].
        exists r. split; [| exact Hst].
        rewrite Hresp. unfold s1. simpl. apply absorbed_response.
Qed.

(** A run of pages of which the last one ends the loop without failure. *)
Lemma fetch_loop_pages (init : list page_doc) (final : page_doc)
    (s : fetch_state) (fuel : nat) :
  serves_from server filter_query page_size (st_page s) (init ++ [final]) →
  (∀ i doc, init !! i = Some doc →
     no_next_link doc = false
     ∧ reached_max max_pages (st_page s + Z.of_nat i) = false) →
  no_next_link final
  || reached_max max_pages (st_page s + Z.of_nat (length init)) = true →
  (length init < fuel)%nat →
  let all := st_results s ++ concat (page_records <$> init ++ [final]) in
  ∃ pre,
    loop fuel s =
      Some (Returns all
              (pre ++ [stop_line max_pages (st_page s + Z.of_nat (length init)) final;
                       "Total grants fetched: " +:+ pretty (Z.of_nat (length all))]))
    ∧ st_out s `prefix_of` pre.
Proof.
  intros Hsrv Hgo Hstop Hfuel all.
  destruct (fetch_loop_continue init s) as (s' & Hloop & Hres & Hpage & Hout & _).
  { intros i d Hd. apply Hsrv. now apply lookup_app_l_Some. }
  { exact Hgo. }
  destruct (Hsrv (length init) final) as [(r & Hr & Hst & Hjs) Hdata].
  { now rewrite list_lookup_middle. }
  rewrite <- Hpage in Hr, Hstop.
  pose proof (loop_body_served s' r final Hr Hst Hjs Hdata) as Hbody.
  rewrite Hstop in Hbody. simpl in Hbody.
  replace fuel with (length init + S (fuel - S (length init)))%nat by lia.
  rewrite Hloop. simpl. rewrite Hbody. simpl.
  exists (st_out (absorbed r final s')).
  rewrite absorbed_results, Hres, <- Hpage.
  unfold all. rewrite fmap_app, concat_app. simpl. rewrite app_nil_r, <- app_assoc.
  split.
  - rewrite <- app_assoc. reflexivity.
  - etransitivity; [exact Hout | apply absorbed_out].
Qed.

End FetchFacts.

Lemma reached_max_none (page : Z) : reached_max None page = false.
Proof. reflexivity. Qed.

Lemma reached_max_some (m page : Z) :
  1 ≤ m → reached_max (Some m) page = bool_decide (m ≤ page).
Proof.
  intros Hm. unfold reached_max.
  replace (m =? 0) with false by lia. simpl.
  destruct (Z.leb_spec m page); [now rewrite bool_decide_true | now rewrite bool_decide_false by lia].
Qed.

(** A limit of zero is no limit. *)
Lemma fetch_loop_max_zero
    (server : request → http_result) (filter_query : option string)
    (page_size : Z) (fuel : nat) (s : fetch_state) :
  fetch_loop server filter_query page_size (Some 0) fuel s
  = fetch_loop server filter_query page_size None fuel s.
Proof.
  revert s. induction fuel as [|fuel IH]; intros s; simpl; [reflexivity |].
  change (loop_body server filter_query page_size (Some 0) s)
    with (loop_body server filter_query page_size None s).
  destruct (loop_body server filter_query page_size None s); auto.
Qed.

(** C1 (amended).  When the server has the pages [docs] (each answered
    successfully with a data array, the last one, and only the last one,
    without a next link), [fetch_grants] without a page limit returns the
    records of all pages, concatenated in page order, and reports the end of
    the results; with [max_pages = m] for [m >= 1] it returns the records of
    the first [m] pages, also when further pages are available; with
    [max_pages = 0] it does what it does without a limit. *)
Theorem fetch_grants_concatenates_pages
    (server : request → http_result) (filter_query : option string)
    (page_size : Z) (docs : list page_doc) (fuel : nat) :
  serves_pages server filter_query page_size docs →
  (length docs ≤ fuel)%nat →
  (let all := concat (page_records <$> docs) in
   ∃ pre,
     fetch_grants server filter_query page_size None fuel =
       Some (Returns all
               (pre ++ ["Reached end of results at page "
                          +:+ pretty (Z.of_nat (length docs));
                        "Total grants fetched: "
                          +:+ pretty (Z.of_nat (length all))])))
  ∧ (∀ m : Z, 1 ≤ m →
      ∃ out,
        fetch_grants server filter_query page_size (Some m) fuel =
          Some (Returns (concat (page_records <$> take (Z.to_nat m) docs)) out))
  ∧ fetch_grants server filter_query page_size (Some 0) fuel
    = fetch_grants server filter_query page_size None fuel.
Proof.
  intros (Hne & Hsrv & Hnext) Hfuel.
  split; [| split; [| apply fetch_loop_max_zero]].
  - destruct docs as [|d0 ds] using rev_ind; [done |]. clear IHds.
    rename ds into init, d0 into final.
    destruct (fetch_loop_pages server filter_query page_size None
                init final initial_state fuel) as (pre & Hrun & _).
    + exact Hsrv.
    + intros i d Hd. split; [| reflexivity].
      rewrite (Hnext i d) by now apply lookup_app_l_Some.
      apply bool_decide_false. apply lookup_lt_Some in Hd.
      rewrite length_app. simpl. lia.
    + rewrite (Hnext (length init) final) by now rewrite list_lookup_middle.
      rewrite bool_decide_true; [reflexivity |]. rewrite length_app. simpl. lia.
    + rewrite length_app in Hfuel. simpl in Hfuel. lia.
    + exists pre. unfold fetch_grants. rewrite Hrun. simpl.
      unfold stop_line.
      rewrite (Hnext (length init) final) by now rewrite list_lookup_middle.
      rewrite bool_decide_true by (rewrite length_app; simpl; lia).
      rewrite length_app. simpl.
      replace (1 + Z.of_nat (length init)) with (Z.of_nat (length init + 1)) by lia.
      reflexivity.
  - intros m Hm.
    set (k := Z.to_nat m).
    assert (Hk : (1 ≤ k)%nat) by (unfold k; lia).
    assert (Hlen : (1 ≤ length (take k docs))%nat).
    { rewrite length_take. destruct docs; [done |]. simpl. lia. }
    destruct (take k docs) as [|d0 ds] eqn:Htake using rev_ind;
      [simpl in Hlen; lia |]. clear IHds Hlen.
    rename ds into init, d0 into final.
    assert (Hlook : ∀ i d, (init ++ [final]) !! i = Some d →
                           docs !! i = Some d ∧ (i < k)%nat).
    { intros i d Hd. rewrite <- Htake in Hd.
      apply lookup_take_Some in Hd. exact Hd. }
    assert (Hlen : length (init ++ [final]) = (k `min` length docs)%nat).
    { rewrite <- Htake. apply length_take. }
    rewrite length_app in Hlen. simpl in Hlen.
    destruct (fetch_loop_pages server filter_query page_size (Some m)
                init final initial_state fuel) as (pre & Hrun & _).
    + intros i d Hd. apply Hsrv. now apply Hlook.
    + intros i d Hd.
      assert (Hi : (i < length init)%nat) by now apply lookup_lt_Some in Hd.
      destruct (Hlook i d) as [Hd' _]; [now apply lookup_app_l_Some |].
      split.
      * rewrite (Hnext i d Hd'). apply bool_decide_false. lia.
      * rewrite reached_max_some by exact Hm. apply bool_decide_false.
        simpl. unfold k in *. lia.
    + destruct (Hlook (length init) final) as [Hd' _];
        [now rewrite list_lookup_middle |].
      rewrite (Hnext _ _ Hd'), reached_max_some by exact Hm.
      simpl. apply orb_true_iff.
      destruct (decide (S (length init) = length docs)) as [He|He].
      * left. now apply bool_decide_true.
      * right. apply bool_decide_true. unfold k in *. lia.
    + lia.
    + exists (pre ++ [stop_line (Some m)
                      (st_page initial_state + Z.of_nat (length init)) final;
                    "Total grants fetched: " +:+
                    pretty (Z.of_nat (length
                      (st_results initial_state
                       ++ concat (page_records <$> init ++ [final]))))]).
      unfold fetch_grants. rewrite Hrun. reflexivity.
Qed.

Lemma except_handler_bound (e_text : string) (s : fetch_state) (r : response) :
  st_response s = Some r →
  except_handler e_text s =
    Break (print (status_diagnostic (status_code r))
             (print ("Error fetching page " +:+ pretty (st_page s) +:+ ": " +:+ e_text) s)).
Proof.
  intros Hr. unfold except_handler, status_diagnostic. simpl. rewrite Hr.
  destruct ((status_code r =? 401) || (status_code r =? 403)); [reflexivity |].
  destruct (status_code r =? 500); reflexivity.
Qed.

Lemma except_handler_unbound (e_text : string) (s : fetch_state) :
  st_response s = None →
  except_handler e_text s =
    Escapes (UnboundLocalError "response")
      (print ("Error fetching page " +:+ pretty (st_page s) +:+ ": " +:+ e_text) s).
Proof. intros Hr. unfold except_handler. simpl. now rewrite Hr. Qed.

(** A response with a 4xx or 5xx status, after any number of pages that
    went through: the diagnostic for that status is printed and the records
    of the earlier pages are returned. *)
Lemma fetch_grants_error_status
    (server : request → http_result) (filter_query : option string)
    (page_size : Z) (max_pages : option Z)
    (docs : list page_doc) (r : response) (fuel : nat) :
  serves_from server filter_query page_size 1 docs →
  (∀ i doc, docs !! i = Some doc →
     no_next_link doc = false
     ∧ reached_max max_pages (1 + Z.of_nat i) = false) →
  server (build_params filter_query page_size (1 + Z.of_nat (length docs)))
    = Responded r →
  raises_for_status r = true →
  (length docs < fuel)%nat →
  let got := concat (page_records <$> docs) in
  ∃ pre,
    fetch_grants server filter_query page_size max_pages fuel =
      Some (Returns got
              (pre ++ ["Error fetching page "
                         +:+ pretty (1 + Z.of_nat (length docs)) +:+ ": "
                         +:+ error_text r;
                       status_diagnostic (status_code r);
                       "Total grants fetched: " +:+ pretty (Z.of_nat (length got))])).
Proof.
  intros Hsrv Hgo Hr Hst Hfuel got.
  destruct (fetch_loop_continue server filter_query page_size max_pages
              docs initial_state Hsrv Hgo)
    as (s' & Hloop & Hres & Hpage & _ & _).
  simpl in Hres, Hpage.
  unfold fetch_grants.
  replace fuel with (length docs + S (fuel - S (length docs)))%nat by lia.
  rewrite Hloop. simpl. unfold loop_body.
  rewrite Hpage, Hr, Hst.
  rewrite (except_handler_bound _ _ r) by reflexivity. simpl.
  exists (st_out s'). rewrite Hres, Hpage. fold got.
  rewrite <- !app_assoc. reflexivity.
Qed.


(** C5 (the code at the failing input).  When the first request gets no
    response at all, the handler reads the unbound local [response]: an
    [UnboundLocalError] leaves [fetch_grants] and nothing is returned. *)
Theorem fetch_grants_no_response_first_page
    (server : request → http_result) (filter_query : option string)
    (page_size : Z) (max_pages : option Z) (e_text : string) (fuel : nat) :
  server (build_params filter_query page_size 1) = NoResponse e_text →
  fetch_grants server filter_query page_size max_pages (S fuel) =
    Some (Propagates (UnboundLocalError "response") []
            ["Fetching data from ARC Grants API...";
             "Error fetching page 1: " +:+ e_text]).
Proof.
  intros Hr. unfold fetch_grants. simpl. unfold loop_body. simpl.
  rewrite Hr. reflexivity.
Qed.

(** ** Column types *)

Lemma guess_field_type_numeric_anywhere (field : string) (rs : list grant) :
  guess_field_type field rs = "REAL"
  ↔ ∃ g attrs value,
      g ∈ rs ∧ grant_attributes g = Some attrs
      ∧ dict_get field attrs = Some value ∧ is_int_or_float value = true.
Proof.
  induction rs as [|g rs IH]; simpl.
  - split; [discriminate | intros (g & ? & ? & Hg & _); inversion Hg].
  - assert (Hrest : guess_field_type field rs = "REAL" →
                    ∃ g0 attrs value, g0 ∈ g :: rs ∧ grant_attributes g0 = Some attrs
                      ∧ dict_get field attrs = Some value ∧ is_int_or_float value = true).
    { intros H. apply IH in H as (g0 & a & v & Hg0 & H). exists g0, a, v.
      split; [now right | exact H]. }
    assert (Hback : ∀ g0 attrs value,
                      g0 ∈ g :: rs → grant_attributes g0 = Some attrs →
                      dict_get field attrs = Some value → is_int_or_float value = true →
                      g0 ≠ g ∨ grant_attributes g = None
                      ∨ (∃ a, grant_attributes g = Some a ∧ dict_get field a = None)
                      ∨ (∃ a v, grant_attributes g = Some a ∧ dict_get field a = Some v
                                ∧ is_int_or_float v = false) →
                      guess_field_type field rs = "REAL").
    { intros g0 a v Hg0 Ha Hv Hn Hcases. apply IH.
      apply elem_of_cons in Hg0 as [-> | Hg0]; [| now exists g0, a, v].
      exfalso. destruct Hcases as [H | [H | [(a' & H1 & H2) | (a' & v' & H1 & H2 & H3)]]];
        congruence. }
    destruct (grant_attributes g) as [attrs|] eqn:Hattrs.
    + destruct (dict_get field attrs) as [value|] eqn:Hget.
      * destruct (is_int_or_float value) eqn:Hnum.
        -- assert (Hnn : is_none value = false) by now destruct value.
           rewrite Hnn. simpl. split; [intros _ | reflexivity].
           exists g, attrs, value. split; [left | done].
        -- replace (if negb (is_none value) then guess_field_type field rs
                    else guess_field_type field rs)
             with (guess_field_type field rs) by now destruct (is_none value).
           split; [exact Hrest |].
           intros (g0 & a & v & Hg0 & Ha & Hv & Hn).
           eapply Hback; eauto. right; right; right. eauto.
      * split; [exact Hrest |].
        intros (g0 & a & v & Hg0 & Ha & Hv & Hn).
        eapply Hback; eauto. right; right; left. eauto.
    + split; [exact Hrest |].
      intros (g0 & a & v & Hg0 & Ha & Hv & Hn).
      eapply Hback; eauto.
Qed.

Lemma guess_field_type_cases (field : string) (rs : list grant) :
  guess_field_type field rs = "TEXT" ∨ guess_field_type field rs = "REAL".
Proof.
  induction rs as [|g rs IH]; simpl; [now left |].
  destruct (grant_attributes g) as [attrs|]; [| exact IH].
  destruct (dict_get field attrs) as [value|]; [| exact IH].
  destruct (is_none value); simpl; [exact IH |].
  destruct (is_int_or_float value); [now right | exact IH].
Qed.

(** C4 (the code at the failing input).  The scan does not stop at the
    first value that is not null: with the text "abc" in the first record
    and the number 5 in the second, the column comes out as REAL. *)
Theorem guess_field_type_text_then_number :
  grant_attributes grant_text = Some [("x", JStr "abc")]
  ∧ grant_attributes grant_number = Some [("x", JInt 5)]
  ∧ guess_field_type "x" [grant_text; grant_number] = "REAL"
  ∧ sqlite_fields [grant_text; grant_number] = ["id TEXT PRIMARY KEY"; "x REAL"].
Proof. repeat split; vm_compute; reflexivity. Qed.

(** A boolean counts as a number: a column whose first value is [true]
    comes out as REAL. *)
Lemma guess_field_type_boolean :
  guess_field_type "x" [Grant (Some "A") (Some [("x", JBool true)])] = "REAL".
Proof. reflexivity. Qed.

(** ** Nothing to export *)

(** C6.  With no records both exporters return [False], print that there
    is nothing to export, and leave the file system as it was. *)
Theorem exporters_nothing_to_export (filename : string) (fs : filesystem) :
  export_to_csv (Api []) filename fs
    = ExportResult false (Api []) fs ["No results to export."]
  ∧ export_to_sqlite (Api []) filename fs
    = ExportResult false (Api []) fs ["No results to export."].
Proof. split; reflexivity. Qed.

(** ** Column names *)




Lemma string_app_empty (s : string) : s +:+ EmptyString = s.
Proof.
  induction s as [|c s IH]; [reflexivity |].
  change (String c (s +:+ EmptyString) = String c s). now rewrite IH.
Qed.

Lemma sqlite_columns_fields (rs : list grant) :
  column_sql <$> sqlite_columns rs = sqlite_fields rs.
Proof.
  unfold sqlite_columns, sqlite_fields. simpl. f_equal.
  rewrite <- list_fmap_compose. apply list_fmap_ext. intros i field _.
  unfold column_sql, compose. simpl.
  now rewrite string_app_empty.
Qed.




(** ** CSV exporter: properties *)


Lemma csv_row_keys_from (attrs row : list (string * json)) (k : string) :
  k ∈ (foldl (λ row kv, dict_set kv.1 (export_value kv.2) row) row attrs).*1
  ↔ k ∈ row.*1 ∨ k ∈ attrs.*1.
Proof.
  revert row. induction attrs as [|[k0 v0] attrs IH]; intros row; simpl.
  - rewrite elem_of_nil. tauto.
  - rewrite IH, dict_set_keys, elem_of_cons. simpl. tauto.
Qed.

Lemma csv_row_keys (g : grant) (k : string) :
  k ∈ (csv_row g).*1 ↔ k = "id" ∨ k ∈ attribute_keys g.
Proof.
  unfold csv_row, attribute_keys. destruct (grant_attributes g) as [attrs|].
  - rewrite csv_row_keys_from. simpl. now rewrite list_elem_of_singleton.
  - simpl. rewrite list_elem_of_singleton, elem_of_nil. tauto.
Qed.



Lemma writerow_ok (fieldnames : list string) (g : grant) :
  (∀ k, k ∈ attribute_keys g → k ∈ fieldnames) →
  "id" ∈ fieldnames →
  writerow fieldnames (csv_row g)
  = inr (map (λ k, csv_field (default (JStr EmptyString) (dict_get k (csv_row g))))
             fieldnames).
Proof.
  intros Hkeys Hid. unfold writerow.
  assert (Hall : forallb (λ k, bool_decide (k ∈ fieldnames)) (csv_row g).*1 = true).
  { apply forallb_forall. intros k Hk. apply bool_decide_eq_true.
    apply list_elem_of_In, csv_row_keys in Hk as [-> | Hk]; auto. }
  now rewrite Hall.
Qed.

Lemma write_rows_ok (fieldnames : list string) (gs : list grant)
    (written : list (list string)) :
  (∀ g k, g ∈ gs → k ∈ attribute_keys g → k ∈ fieldnames) →
  "id" ∈ fieldnames →
  write_rows fieldnames gs written
  = (written
     ++ map (λ g, map (λ k, csv_field (default (JStr EmptyString)
                                          (dict_get k (csv_row g))))
                      fieldnames) gs,
     None).
Proof.
  intros Hkeys Hid. revert written.
  induction gs as [|g gs IH]; intros written; simpl.
  - now rewrite app_nil_r.
  - rewrite writerow_ok; [| intros k Hk; apply (Hkeys g); [left | exact Hk] | exact Hid].
    rewrite IH; [now rewrite <- app_assoc |].
    intros g' k Hg'. apply Hkeys. now right.
Qed.


(** ** Table exporter: the engine on the statements of one run *)

Lemma first_duplicate_None (names : list string) :
  first_duplicate names = None → NoDup names.
Proof.
  induction names as [|n names IH]; simpl; [intros _; constructor |].
  case_bool_decide as Hn; [discriminate |].
  intros H. constructor; auto.
Qed.

Lemma execute_trace (s : statement) (c c' : connection) (failure : option string) :
  execute s c = (c', failure) → conn_executed c' = conn_executed c ++ [s].
Proof.
  unfold execute. destruct (engine_exec s (conn_working c)) as [e|db].
  - now intros [= <- _].
  - destruct s; [destruct (conn_in_transaction c) | destruct (conn_in_transaction c) |];
      now intros [= <- _].
Qed.

(** A failing statement changes nothing, and the error it reports is the
    one the engine gives for it on the tables as they stand. *)
Lemma execute_failure (s : statement) (c c' : connection) (e : string) :
  execute s c = (c', Some e) →
  conn_working c' = conn_working c
  ∧ conn_committed c' = conn_committed c
  ∧ engine_exec s (conn_working c') = inl e.
Proof.
  unfold execute. destruct (engine_exec s (conn_working c)) as [e'|db] eqn:He.
  - intros [= <- <-]. simpl. auto.
  - destruct s; [destruct (conn_in_transaction c) | destruct (conn_in_transaction c) |];
      discriminate.
Qed.

Lemma execute_drop (c : connection) :
  execute (DropTableIfExists "grants") c
  = (Connection
       (if conn_in_transaction c then conn_committed c
        else delete "grants" (conn_working c))
       (delete "grants" (conn_working c))
       (conn_in_transaction c)
       (conn_executed c ++ [DropTableIfExists "grants"]),
     None).
Proof. unfold execute. simpl. now destruct (conn_in_transaction c). Qed.

(** What a successful [CREATE TABLE] on a fresh connection leaves. *)
Lemma execute_create (rs : list grant) (c c' : connection) :
  execute (CreateTable "grants" (sqlite_columns rs)) c = (c', None) →
  conn_working c' !! "grants" = Some (Table (sqlite_columns rs) [])
  ∧ (∀ key, key ∈ sorted_fieldnames rs → safe_field key ≠ "id")
  ∧ (conn_in_transaction c = false → conn_committed c' = conn_working c').
Proof.
  unfold execute, engine_exec.
  change (str_lower "grants") with "grants".
  destruct (conn_working c !! "grants"); [discriminate |].
  destruct (first_duplicate _) as [n|] eqn:Hdup; [discriminate |].
  apply first_duplicate_None in Hdup.
  destruct (1 <? _)%nat; [discriminate |].
  assert (Hkeys : ∀ key, key ∈ sorted_fieldnames rs → safe_field key ≠ "id").
  { intros key Hkey Hid. unfold sqlite_columns in Hdup.
    rewrite !fmap_cons in Hdup. cbn [col_name] in Hdup.
    apply NoDup_cons in Hdup as [Hnotin _]. apply Hnotin.
    rewrite <- Hid.
    apply list_elem_of_fmap_2.
    apply (list_elem_of_fmap_2' col_name _
             (ColumnDef (safe_field key) (guess_field_type key rs) false));
      [| reflexivity].
    apply (list_elem_of_fmap_2
             (λ field, ColumnDef (safe_field field) (guess_field_type field rs) false)).
    exact Hkey. }
  destruct (conn_in_transaction c); intros [= <-]; simpl;
    (split; [apply lookup_insert_eq | split; [exact Hkeys |]]); [discriminate | reflexivity].
Qed.

(** The dictionary [values] starts with the record's id, unless an
    attribute key is spelled [id] after normalisation. *)
Lemma insert_values_head (g : grant) :
  (∀ key, key ∈ attribute_keys g → safe_field key ≠ "id") →
  ∃ rest, insert_values g = ("id", JStr (id_or_empty g)) :: rest.
Proof.
  unfold insert_values, attribute_keys.
  destruct (grant_attributes g) as [attrs|]; [| intros _; now exists []].
  generalize (@nil (string * json)) as rest.
  induction attrs as [|[key v] attrs IH]; intros rest Hkeys; simpl.
  - now exists rest.
  - rewrite decide_False.
    + apply IH. intros k Hk. apply Hkeys. now right.
    + apply Hkeys. left.
Qed.

Lemma bind_params_head (s : string) (params : list json) (values : list sqlvalue) :
  bind_params (JStr s :: params) = inr values →
  ∃ rest, values = SqlText s :: rest.
Proof.
  simpl. destruct (bind_params params) as [e|vs]; [discriminate |].
  intros [= <-]. now exists vs.
Qed.

Lemma violates_key_stored (columns : list column_def) (ty : string)
    (rows : list (list sqlvalue)) (s : string) (rest : list sqlvalue) :
  stores_id rows s →
  violates_key (ColumnDef "id" ty true :: columns) rows (SqlText s :: rest) = true.
Proof.
  intros (row & Hrow & Hid). unfold violates_key. simpl.
  apply orb_true_iff. left.
  apply existsb_exists. exists row. split; [now apply list_elem_of_In |].
  now apply bool_decide_eq_true.
Qed.

(** The insert statement of a record against the table of this run. *)
Lemma engine_insert (g : grant) (db : gmap string table) (ty : string)
    (columns : list column_def) (rows : list (list sqlvalue)) :
  db !! "grants" = Some (Table (ColumnDef "id" ty true :: columns) rows) →
  (∀ key, key ∈ attribute_keys g → safe_field key ≠ "id") →
  match engine_exec (insert_statement g) db with
  | inl _ => True
  | inr db' =>
      ¬ stores_id rows (id_or_empty g)
      ∧ ∃ row,
          db' !! "grants"
          = Some (Table (ColumnDef "id" ty true :: columns) (rows ++ [row]))
          ∧ row !! 0%nat = Some (SqlText (id_or_empty g))
  end.
Proof.
  intros Hdb Hkeys.
  destruct (insert_values_head g Hkeys) as (tail & Hvalues).
  unfold insert_statement, engine_exec. rewrite Hvalues.
  change (str_lower "grants") with "grants". rewrite Hdb.
  cbn [table_columns table_rows].
  destruct (first_unknown _ _); [exact I |].
  destruct (bind_params _) as [e|values] eqn:Hbind; [exact I |].
  simpl in Hbind.
  apply bind_params_head in Hbind as (rest & ->).
  set (row := inserted_value _ _ <$> _).
  assert (Hrow : ∃ others, row = SqlText (id_or_empty g) :: others).
  { unfold row. simpl. eexists. f_equal. }
  destruct Hrow as (others & Hrow). rewrite Hrow.
  destruct (violates_key _ rows _) eqn:Hv; [exact I |].
  split.
  - intros Hstored.
    rewrite (violates_key_stored columns ty rows _ others Hstored) in Hv.
    discriminate.
  - exists (SqlText (id_or_empty g) :: others).
    split; [apply lookup_insert_eq | reflexivity].
Qed.

Lemma stores_id_app (rows : list (list sqlvalue)) (row : list sqlvalue) (s : string) :
  stores_id rows s ∨ row !! 0%nat = Some (SqlText s) → stores_id (rows ++ [row]) s.
Proof.
  intros [(r & Hr & Hid) | Hid].
  - exists r. split; [apply elem_of_app; now left | exact Hid].
  - exists row. split; [apply elem_of_app; right; left | exact Hid].
Qed.

(** The insert loop on a list in which the record at position [j] has the
    id of a stored row or of an earlier record: the loop fails, at the
    insert for that record at the latest. *)
Lemma insert_all_duplicate (gs : list grant) :
  ∀ (c : connection) (ty : string) (columns : list column_def)
    (rows : list (list sqlvalue)) (j : nat) (gj : grant),
  conn_working c !! "grants" = Some (Table (ColumnDef "id" ty true :: columns) rows) →
  (∀ g key, g ∈ gs → key ∈ attribute_keys g → safe_field key ≠ "id") →
  gs !! j = Some gj →
  (stores_id rows (id_or_empty gj)
   ∨ ∃ i gi, (i < j)%nat ∧ gs !! i = Some gi ∧ id_or_empty gi = id_or_empty gj) →
  ∃ c' e n,
    insert_all gs c = (c', Some e)
    ∧ (n ≤ S j)%nat
    ∧ conn_executed c' = conn_executed c ++ (insert_statement <$> take n gs)
    ∧ conn_committed c' = conn_committed c
    ∧ ∃ s, last (conn_executed c') = Some s
           ∧ engine_exec s (conn_working c') = inl e.
Proof.
  induction gs as [|g gs IH]; intros c ty columns rows j gj Hdb Hkeys Hj Hdup.
  - inversion Hj.
  - pose proof (engine_insert g (conn_working c) ty columns rows Hdb
                  (λ key, Hkeys g key ltac:(left))) as Hins.
    simpl. unfold execute.
    destruct (engine_exec (insert_statement g) (conn_working c)) as [e|db'] eqn:Hexec.
    + eexists _, e, 1%nat. split; [reflexivity |]. simpl.
      split; [lia |]. split; [now rewrite ?take_0 |]. split; [reflexivity |].
      exists (insert_statement g). split; [apply last_snoc | exact Hexec].
    + destruct Hins as (Hfresh & row & Hdb' & Hrow).
      unfold insert_statement at 1.
      destruct j as [|j].
      { exfalso. injection Hj as <-.
        destruct Hdup as [Hst | (i & gi & Hi & _)]; [now apply Hfresh | lia]. }
      simpl in Hj.
      set (c1 := Connection (conn_committed c) db' true
                   (conn_executed c ++ [insert_statement g])).
      destruct (IH c1 ty columns (rows ++ [row]) j gj) as (c' & e & n & Hrun & Hn & Htrace & Hcommitted & Hlast).
      * exact Hdb'.
      * intros g' key Hg'. apply Hkeys. now right.
      * exact Hj.
      * destruct Hdup as [Hst | (i & gi & Hi & Hgi & Hid)].
        -- left. apply stores_id_app. now left.
        -- destruct i as [|i].
           ++ injection Hgi as <-. left. apply stores_id_app. right.
              now rewrite <- Hid.
           ++ right. exists i, gi. split; [lia |]. split; [exact Hgi | exact Hid].
      * exists c', e, (S n). split; [exact Hrun |]. split; [lia |].
        split; [| split; [exact Hcommitted | exact Hlast]].
        rewrite Htrace. unfold c1. simpl. now rewrite <- app_assoc.
Qed.

(** The statements of a run on a list with two records of the same id. *)
Lemma sqlite_body_duplicate (rs : list grant) (db : gmap string table)
    (i j : nat) (gi gj : grant) :
  rs !! i = Some gi → rs !! j = Some gj → (i < j)%nat →
  id_or_empty gi = id_or_empty gj →
  ∃ c e n,
    sqlite_body rs (connect db) = (c, Some e)
    ∧ (n ≤ S j)%nat
    ∧ conn_executed c
      = DropTableIfExists "grants"
        :: CreateTable "grants" (sqlite_columns rs)
        :: (insert_statement <$> take n rs)
    ∧ (∃ s, last (conn_executed c) = Some s
            ∧ engine_exec s (conn_working c) = inl e)
    ∧ (n = S j → last (conn_executed c) = Some (insert_statement gj))
    ∧ (conn_committed c !! "grants" = None
       ∨ conn_committed c !! "grants" = Some (Table (sqlite_columns rs) [])).
Proof.
  intros Hi Hj Hij Hid.
  assert (Hlast_insert : ∀ c n,
            conn_executed c
            = DropTableIfExists "grants"
              :: CreateTable "grants" (sqlite_columns rs)
              :: (insert_statement <$> take n rs) →
            n = S j → last (conn_executed c) = Some (insert_statement gj)).
  { intros c n -> ->. rewrite (take_S_r rs j gj Hj), fmap_app.
    rewrite !app_comm_cons. apply last_snoc. }
  unfold sqlite_body.
  rewrite execute_drop. simpl.
  set (c1 := Connection _ _ _ _).
  destruct (execute (CreateTable "grants" (sqlite_columns rs)) c1)
    as [c2 [e|]] eqn:Hcreate.
  - pose proof (execute_trace _ _ _ _ Hcreate) as Htrace.
    destruct (execute_failure _ _ _ _ Hcreate) as (Hw & Hc & He).
    exists c2, e, 0%nat. split; [reflexivity |]. split; [lia |].
    split; [rewrite Htrace, take_0; reflexivity |].
    split; [| split; [lia |]].
    + exists (CreateTable "grants" (sqlite_columns rs)).
      split; [| exact He]. rewrite Htrace. apply last_snoc.
    + left. rewrite Hc. unfold c1. simpl. apply lookup_delete_eq.
  - pose proof (execute_trace _ _ _ _ Hcreate) as Htrace.
    destruct (execute_create rs c1 c2 Hcreate) as (Htable & Hkeys & Hcommit).
    specialize (Hcommit eq_refl).
    unfold sqlite_columns in Htable at 1.
    destruct (insert_all_duplicate rs c2 "TEXT" _ [] j gj Htable) as (c' & e & n & Hrun & Hn & Htr & Hcom & Hlast).
    + intros g key Hg Hkey. apply Hkeys, elem_of_sorted_fieldnames. now exists g.
    + exact Hj.
    + right. now exists i, gi.
    + rewrite Hrun. exists c', e, n. split; [reflexivity |]. split; [exact Hn |].
      assert (Hshape : conn_executed c'
                       = DropTableIfExists "grants"
                         :: CreateTable "grants" (sqlite_columns rs)
                         :: (insert_statement <$> take n rs))
        by (rewrite Htr, Htrace; reflexivity).
      split; [exact Hshape |].
      split; [exact Hlast |].
      split; [now apply Hlast_insert |].
      right. rewrite Hcom, Hcommit. exact Htable.
Qed.

Lemma main_export_runs_both (self : api) (csv sqlite : string) (fs : filesystem) :
  results self ≠ [] →
  main_export self csv sqlite fs
  = let r1 := export_to_csv self csv fs in
    let r2 := export_to_sqlite (self_after r1) sqlite (fs_after r1) in
    (self_after r2, fs_after r2,
     out r1 ++ out r2
     ++ ["Export complete. Files saved as " +:+ csv +:+ " and " +:+ sqlite]).
Proof. intros Hne. unfold main_export. now destruct (results self). Qed.

Lemma export_to_csv_self (self : api) (filename : string) (fs : filesystem) :
  self_after (export_to_csv self filename fs) = self.
Proof.
  unfold export_to_csv. destruct (results self); [reflexivity |].
  destruct (open_error fs filename); [reflexivity |].
  destruct (write_rows _ _ _) as [rows [e|]]; reflexivity.
Qed.



(** ** The exporters and the shared record list *)



(** An exporter touches no file but its own. *)
Lemma export_to_csv_touches (self : api) (csv : string) (fs : filesystem) :
  fs_after (export_to_csv self csv fs) = fs
  ∨ ∃ f, fs_after (export_to_csv self csv fs) = write_file csv f fs.
Proof.
  unfold export_to_csv. destruct (results self); [now left |].
  destruct (open_error fs csv); [now left |].
  destruct (write_rows _ _ _) as [rows [e|]]; right; eexists; reflexivity.
Qed.

Lemma export_to_sqlite_touches (self : api) (sqlite : string) (fs : filesystem) :
  fs_after (export_to_sqlite self sqlite fs) = fs
  ∨ ∃ f, fs_after (export_to_sqlite self sqlite fs) = write_file sqlite f fs.
Proof.
  unfold export_to_sqlite. destruct (results self); [now left |].
  destruct (open_error fs sqlite); [now left |].
  destruct (database_at fs sqlite); [| now left].
  destruct (sqlite_body _ _) as [c [e|]]; right; eexists; reflexivity.
Qed.




(** ** Paginated fetcher: any server *)

Section FetchAnyServer.

Variable server : request → http_result.
Variable filter_query : option string.
Variable page_size : Z.
Variable max_pages : option Z.

#[local] Abbreviation body1 := (loop_body server filter_query page_size max_pages).
#[local] Abbreviation loop1 := (fetch_loop server filter_query page_size max_pages).
#[local] Abbreviation served1 := (served server filter_query page_size).

(** Every way one pass through the loop body can end. *)
Lemma loop_body_cases (s : fetch_state) :
  match body1 s with
  | Continue s' =>
      ∃ r doc,
        served1 (st_page s) doc ∧ is_Some (doc_data doc)
        ∧ no_next_link doc = false
        ∧ reached_max max_pages (st_page s) = false
        ∧ st_results s' = st_results s ++ page_records doc
        ∧ st_page s' = st_page s + 1
        ∧ st_response s' = Some r
  | Break s' =>
      st_results s' = st_results s
      ∨ ∃ doc, served1 (st_page s) doc ∧ is_Some (doc_data doc)
               ∧ st_results s' = st_results s ++ page_records doc
  | Escapes e s' =>
      e = UnboundLocalError "response"
      ∧ st_response s = None
      ∧ st_results s' = st_results s
      ∧ ∃ e_text, server (build_params filter_query page_size (st_page s))
                  = NoResponse e_text
  end.
Proof.
  unfold loop_body.
  destruct (server (build_params filter_query page_size (st_page s)))
    as [e_text | r] eqn:Hsrv.
  - destruct (st_response s) as [r0|] eqn:Hr.
    + rewrite (except_handler_bound _ _ r0 Hr). now left.
    + rewrite (except_handler_unbound _ _ Hr). simpl. eauto.
  - destruct (raises_for_status r) eqn:Hst.
    { rewrite (except_handler_bound _ (bind_response r s) r eq_refl). now left. }
    destruct (json_body r) as [doc|] eqn:Hjs.
    2: { rewrite (except_handler_bound _ (bind_response r s) r eq_refl). now left. }
    destruct (doc_data doc) as [records|] eqn:Hdata; [| now left].
    assert (Hserved : served1 (st_page s) doc) by (exists r; auto).
    assert (Hrecords : page_records doc = records)
      by (unfold page_records; now rewrite Hdata).
    rewrite update_pagination_page. simpl.
    destruct (no_next_link doc) eqn:Hnext.
    { right. exists doc. simpl. rewrite update_pagination_results. simpl.
      rewrite Hrecords. eauto. }
    destruct (reached_max max_pages (st_page s)) eqn:Hmax.
    { right. exists doc. simpl. rewrite update_pagination_results. simpl.
      rewrite Hrecords. eauto. }
    exists r, doc. simpl.
    rewrite update_pagination_results, update_pagination_page,
      update_pagination_response. simpl.
    rewrite Hrecords. repeat split; eauto.
Qed.

Lemma serves_from_cons (first : Z) (doc : page_doc) (docs : list page_doc) :
  served1 first doc → is_Some (doc_data doc) →
  serves_from server filter_query page_size (first + 1) docs →
  serves_from server filter_query page_size first (doc :: docs).
Proof.
  intros Hdoc Hdata Hrest [|i] d Hd; simpl in Hd.
  - injection Hd as <-. rewrite Z.add_0_r. auto.
  - replace (first + Z.of_nat (S i)) with (first + 1 + Z.of_nat i) by lia.
    now apply Hrest.
Qed.

(** Whatever the server does, what the loop hands back is what it had plus
    the records of pages served one after the other, and an exception
    leaves it only while no response has ever been bound. *)
Lemma fetch_loop_sound (fuel : nat) :
  ∀ (s : fetch_state) (o : outcome),
  loop1 fuel s = Some o →
  match o with
  | Returns rs _ =>
      ∃ docs,
        serves_from server filter_query page_size (st_page s) docs
        ∧ rs = st_results s ++ concat (page_records <$> docs)
        ∧ ∀ m, max_pages = Some m → m ≠ 0 →
            (length docs ≤ 1)%nat ∨ st_page s + Z.of_nat (length docs) - 1 ≤ m
  | Propagates e rs _ =>
      e = UnboundLocalError "response"
      ∧ st_response s = None
      ∧ rs = st_results s
      ∧ ∃ e_text, server (build_params filter_query page_size (st_page s))
                  = NoResponse e_text
  end.
Proof.
  induction fuel as [|fuel IH]; intros s o; simpl; [discriminate |].
  pose proof (loop_body_cases s) as Hcases.
  destruct (body1 s) as [s' | s' | e s'].
  - destruct Hcases as (r & doc & Hdoc & Hdata & Hnext & Hmax & Hres & Hpage & Hresp).
    intros Hrun. specialize (IH s' o Hrun).
    destruct o as [rs out | e rs out].
    + destruct IH as (docs & Hdocs & -> & Hbound).
      exists (doc :: docs). split.
      * apply serves_from_cons; [exact Hdoc | exact Hdata |].
        now rewrite <- Hpage.
      * split; [rewrite Hres; simpl; now rewrite <- app_assoc |].
        intros m Hm Hm0. right.
        assert (Hlt : st_page s < m).
        { rewrite Hm in Hmax. unfold reached_max in Hmax.
          replace (m =? 0) with false in Hmax by lia. simpl in Hmax. lia. }
        destruct (Hbound m Hm Hm0) as [Hb | Hb]; simpl length; lia.
    + destruct IH as (_ & Hnone & _). congruence.
  - intros [= <-].
    destruct Hcases as [Hres | (doc & Hdoc & Hdata & Hres)]; simpl; rewrite Hres.
    + exists []. split; [intros i d Hd; inversion Hd |].
      split; [simpl; now rewrite app_nil_r |]. intros; left; simpl; lia.
    + exists [doc]. split.
      * apply serves_from_cons; [exact Hdoc | exact Hdata |].
        intros i d Hd. inversion Hd.
      * split; [simpl; now rewrite app_nil_r |]. intros; left; simpl; lia.
  - intros [= <-]. destruct Hcases as (-> & Hnone & Hres & Hsrv).
    rewrite Hres. auto.
Qed.

End FetchAnyServer.

(** X5.  Whatever the server answers, the list [fetch_grants] returns is
    the concatenation of the [data] arrays of pages 1, 2, ..., k that were
    served one after the other: nothing is added, dropped or reordered; and
    with [max_pages = m] for [m >= 1] at most [m] pages contribute. *)
Theorem fetch_grants_returns_served_pages
    (server : request → http_result) (filter_query : option string)
    (page_size : Z) (max_pages : option Z) (fuel : nat)
    (rs : list grant) (out : list string) :
  fetch_grants server filter_query page_size max_pages fuel = Some (Returns rs out) →
  ∃ docs,
    serves_from server filter_query page_size 1 docs
    ∧ rs = concat (page_records <$> docs)
    ∧ ∀ m, max_pages = Some m → 1 ≤ m → (length docs ≤ Z.to_nat m)%nat.
Proof.
  intros Hrun.
  destruct (fetch_loop_sound server filter_query page_size max_pages fuel
              initial_state _ Hrun) as (docs & Hdocs & Hrs & Hbound).
  exists docs. split; [exact Hdocs |]. split; [exact Hrs |].
  intros m Hm Hm1. simpl in Hbound.
  destruct (Hbound m Hm ltac:(lia)); lia.
Qed.


(** X7.  With [max_pages = m] for [m >= 1] the loop ends within [m]
    requests, whatever the server answers, also when every page has a next
    link. *)
Theorem fetch_grants_max_pages_bound
    (server : request → http_result) (filter_query : option string)
    (page_size : Z) (m : Z) :
  1 ≤ m →
  ∃ o, fetch_grants server filter_query page_size (Some m) (Z.to_nat m) = Some o.
Proof.
  intros Hm. unfold fetch_grants.
  assert (Hgen : ∀ fuel s,
            (Z.to_nat (m - st_page s) < fuel)%nat →
            ∃ o, fetch_loop server filter_query page_size (Some m) fuel s = Some o).
  { induction fuel as [|fuel IH]; intros s Hfuel; [lia |]. simpl.
    pose proof (loop_body_cases server filter_query page_size (Some m) s) as Hc.
    destruct (loop_body server filter_query page_size (Some m) s) as [s'|s'|e s'];
      [| eauto | eauto].
    destruct Hc as (r & doc & _ & _ & _ & Hmax & _ & Hpage & _).
    rewrite reached_max_some in Hmax by exact Hm.
    apply bool_decide_eq_false in Hmax.
    apply IH. rewrite Hpage. lia. }
  apply Hgen. simpl. lia.
Qed.

(** X3.  A successful response whose body has no ["data"] key ends the
    loop: "No data found in response." is printed and the records of the
    pages before it are returned. *)
Theorem fetch_grants_missing_data
    (server : request → http_result) (filter_query : option string)
    (page_size : Z) (max_pages : option Z)
    (docs : list page_doc) (r : response) (doc : page_doc) (fuel : nat) :
  serves_from server filter_query page_size 1 docs →
  (∀ i d, docs !! i = Some d →
     no_next_link d = false
     ∧ reached_max max_pages (1 + Z.of_nat i) = false) →
  server (build_params filter_query page_size (1 + Z.of_nat (length docs)))
    = Responded r →
  raises_for_status r = false →
  json_body r = Some doc →
  doc_data doc = None →
  (length docs < fuel)%nat →
  let got := concat (page_records <$> docs) in
  ∃ pre,
    fetch_grants server filter_query page_size max_pages fuel =
      Some (Returns got
              (pre ++ ["No data found in response.";
                       "Total grants fetched: " +:+ pretty (Z.of_nat (length got))])).
Proof.
  intros Hsrv Hgo Hr Hst Hjs Hdata Hfuel got.
  destruct (fetch_loop_continue server filter_query page_size max_pages
              docs initial_state Hsrv Hgo)
    as (s' & Hloop & Hres & Hpage & _ & _).
  simpl in Hres, Hpage.
  unfold fetch_grants.
  replace fuel with (length docs + S (fuel - S (length docs)))%nat by lia.
  rewrite Hloop. simpl. unfold loop_body.
  rewrite Hpage, Hr, Hst, Hjs, Hdata. simpl.
  exists (st_out s'). rewrite Hres. fold got.
  rewrite <- !app_assoc. reflexivity.
Qed.

Lemma status_diagnostic_not_error (code : Z) :
  (400 <=? code) && (code <? 600) = false →
  status_diagnostic code = "HTTP error: " +:+ pretty code.
Proof.
  intros Hcode. unfold status_diagnostic.
  replace (code =? 401) with false by lia.
  replace (code =? 403) with false by lia.
  replace (code =? 500) with false by lia.
  reflexivity.
Qed.

(** X4.  A response with a status below 400 whose body does not decode is
    handled as a failure: the loop ends, the line printed for it is
    "HTTP error: <status>" with the status of that response, and the
    records of the pages before it are returned. *)
Theorem fetch_grants_undecodable_body
    (server : request → http_result) (filter_query : option string)
    (page_size : Z) (max_pages : option Z)
    (docs : list page_doc) (r : response) (fuel : nat) :
  serves_from server filter_query page_size 1 docs →
  (∀ i d, docs !! i = Some d →
     no_next_link d = false
     ∧ reached_max max_pages (1 + Z.of_nat i) = false) →
  server (build_params filter_query page_size (1 + Z.of_nat (length docs)))
    = Responded r →
  raises_for_status r = false →
  json_body r = None →
  (length docs < fuel)%nat →
  let got := concat (page_records <$> docs) in
  ∃ pre,
    fetch_grants server filter_query page_size max_pages fuel =
      Some (Returns got
              (pre ++ ["Error fetching page "
                         +:+ pretty (1 + Z.of_nat (length docs)) +:+ ": "
                         +:+ error_text r;
                       "HTTP error: " +:+ pretty (status_code r);
                       "Total grants fetched: " +:+ pretty (Z.of_nat (length got))])).
Proof.
  intros Hsrv Hgo Hr Hst Hjs Hfuel got.
  destruct (fetch_loop_continue server filter_query page_size max_pages
              docs initial_state Hsrv Hgo)
    as (s' & Hloop & Hres & Hpage & _ & _).
  simpl in Hres, Hpage.
  unfold fetch_grants.
  replace fuel with (length docs + S (fuel - S (length docs)))%nat by lia.
  rewrite Hloop. simpl. unfold loop_body.
  rewrite Hpage, Hr, Hst, Hjs.
  rewrite (except_handler_bound _ (bind_response r s') r eq_refl). simpl.
  rewrite status_diagnostic_not_error by exact Hst.
  exists (st_out s'). rewrite Hres, Hpage. fold got.
  rewrite <- !app_assoc. reflexivity.
Qed.


Lemma fetch_loop_same_requests
    (server : request → http_result) (fq fq' : option string) (size size' : Z)
    (max_pages : option Z) (fuel : nat) (s : fetch_state) :
  (∀ page, build_params fq size page = build_params fq' size' page) →
  fetch_loop server fq size max_pages fuel s
  = fetch_loop server fq' size' max_pages fuel s.
Proof.
  intros Hparams. revert s. induction fuel as [|fuel IH]; intros s; simpl;
    [reflexivity |].
  assert (Hbody : loop_body server fq size max_pages s
                  = loop_body server fq' size' max_pages s).
  { unfold loop_body. now rewrite Hparams. }
  rewrite Hbody.
  destruct (loop_body server fq' size' max_pages s); auto.
Qed.

(** X8.  A page size above 1000 is the same as 1000, and an empty filter
    string is the same as no filter: the requests, and so the whole run,
    are the same. *)
Theorem fetch_grants_clamps_page_size
    (server : request → http_result) (filter_query : option string)
    (page_size : Z) (max_pages : option Z) (fuel : nat) :
  (1000 ≤ page_size →
   fetch_grants server filter_query page_size max_pages fuel
   = fetch_grants server filter_query 1000 max_pages fuel)
  ∧ fetch_grants server (Some EmptyString) page_size max_pages fuel
    = fetch_grants server None page_size max_pages fuel
  ∧ ∀ page, param_page_size (build_params filter_query page_size page) ≤ 1000.
Proof.
  split; [| split].
  - intros Hsize. apply fetch_loop_same_requests.
    intros page. unfold build_params. f_equal. lia.
  - apply fetch_loop_same_requests. reflexivity.
  - intros page. simpl. lia.
Qed.

(** ** Filter builder, schema and CSV exporter: further properties *)

Lemma string_app_not_empty (a b : string) : a ≠ EmptyString → a +:+ b ≠ EmptyString.
Proof. destruct a; [done | discriminate]. Qed.

Lemma no_present_criterion (cs : list (string * option string)) :
  filter (λ c, present c = true) cs = [] ↔ Forall (λ c, present c = false) cs.
Proof.
  induction cs as [|c cs IH]; [split; [constructor | reflexivity] |].
  rewrite filter_cons. destruct (present c) eqn:Hc.
  - rewrite decide_True by reflexivity.
    split; [discriminate | intros H; inversion H; congruence].
  - rewrite decide_False by discriminate. rewrite IH.
    split; [now constructor | intros H; now inversion H].
Qed.

(** X13.  The builder returns the empty string exactly when no text and no
    criterion is supplied (a supplied empty string counts as not
    supplied); so [main] announces a filter, and the fetcher sends one,
    exactly when something was supplied. *)
Theorem build_filter_query_empty_iff (a : filter_args) :
  build_filter_query a = EmptyString
  ↔ truthy_str (search_text a) = false
    ∧ Forall (λ c, present c = false) (criteria a).
Proof.
  rewrite build_filter_query_parts, filter_parts_criteria.
  set (cs := filter (λ c, present c = true) (criteria a)).
  assert (Hcs : cs = [] ↔ Forall (λ c, present c = false) (criteria a)).
  { apply no_present_criterion. }
  rewrite <- Hcs.
  destruct (search_text a) as [[|ch t]|]; destruct cs as [|c0 cs']; simpl;
    split; try discriminate; try tauto; try (intros [? ?]; discriminate).
Qed.

Lemma collect_fieldnames_same (rs rs' : list grant) :
  (∀ g, g ∈ rs ↔ g ∈ rs') → collect_fieldnames rs = collect_fieldnames rs'.
Proof.
  intros Hsame. apply set_eq. intros k.
  rewrite !elem_of_collect_fieldnames.
  split; intros (g & Hg & Hk); exists g; (split; [now apply Hsame | exact Hk]).
Qed.

Lemma guess_field_type_same (field : string) (rs rs' : list grant) :
  (∀ g, g ∈ rs ↔ g ∈ rs') →
  guess_field_type field rs = guess_field_type field rs'.
Proof.
  intros Hsame.
  assert (Hiff : guess_field_type field rs = "REAL"
                 ↔ guess_field_type field rs' = "REAL").
  { rewrite !guess_field_type_numeric_anywhere.
    split; intros (g & a & v & Hg & H); exists g, a, v;
      (split; [now apply Hsame | exact H]). }
  destruct (guess_field_type_cases field rs) as [H1 | H1],
           (guess_field_type_cases field rs') as [H2 | H2];
    try congruence.
  - apply Hiff in H2. congruence.
  - apply Hiff in H1. congruence.
Qed.

(** X10.  The exported schema depends on which records there are, not on
    their order or repetition: two lists with the same records give the
    same CSV header and the same column declarations, types included. *)
Theorem export_schema_order_independent (rs rs' : list grant) :
  (∀ g, g ∈ rs ↔ g ∈ rs') →
  csv_fieldnames rs = csv_fieldnames rs'
  ∧ sqlite_fields rs = sqlite_fields rs'
  ∧ sqlite_columns rs = sqlite_columns rs'.
Proof.
  intros Hsame.
  assert (Hnames : sorted_fieldnames rs = sorted_fieldnames rs').
  { unfold sorted_fieldnames. now rewrite (collect_fieldnames_same rs rs'). }
  unfold csv_fieldnames, sqlite_fields, sqlite_columns. rewrite Hnames.
  split; [reflexivity |].
  split; f_equal; apply map_ext; intros field;
    now rewrite (guess_field_type_same field rs rs').
Qed.


(** X12.  A successful CSV export replaces the file by a rectangular
    table: a header and one row per record, every row as long as the
    header; what the file held before plays no part. *)
Theorem export_to_csv_rectangular (self : api) (filename : string) (fs : filesystem) :
  results self ≠ [] →
  open_error fs filename = None →
  ∃ rows,
    files (fs_after (export_to_csv self filename fs)) !! filename
    = Some (CsvFile (csv_fieldnames (results self) :: rows))
    ∧ length rows = length (results self)
    ∧ Forall (λ row, length row = length (csv_fieldnames (results self))) rows
    ∧ ∀ previous,
        fs_after (export_to_csv self filename (write_file filename previous fs))
        = fs_after (export_to_csv self filename fs).
Proof.
  intros Hne Hopen.
  assert (Hrun : ∀ fs0, open_error fs0 = open_error fs →
            export_to_csv self filename fs0
            = ExportResult true self
                (write_file filename
                   (CsvFile (csv_fieldnames (results self)
                             :: map (λ g, map (λ k, csv_field (default (JStr EmptyString)
                                                       (dict_get k (csv_row g))))
                                              (csv_fieldnames (results self)))
                                    (results self))) fs0)
                ["Exported " +:+ pretty (Z.of_nat (length (results self)))
                 +:+ " grants to " +:+ filename]).
  { intros fs0 Hfs0. unfold export_to_csv.
    destruct (results self) as [|g gs] eqn:Hrs; [done |].
    rewrite Hfs0, Hopen, write_rows_ok.
    - reflexivity.
    - intros g' k Hg' Hk. right. apply elem_of_sorted_fieldnames. now exists g'.
    - left. }
  eexists. rewrite (Hrun fs eq_refl). simpl.
  split; [apply lookup_insert_eq |].
  split; [apply length_map |].
  split.
  - apply Forall_forall. intros row Hrow.
    apply list_elem_of_fmap in Hrow as (g & -> & _).
    unfold csv_fieldnames. simpl. now rewrite length_map.
  - intros previous. rewrite (Hrun (write_file filename previous fs) eq_refl).
    simpl. unfold write_file. simpl. f_equal. apply insert_insert_eq.
Qed.

(** ** Table exporter: what a run leaves in the file *)

Lemma execute_insert_cases (g : grant) (c c' : connection) (r : option string) :
  execute (insert_statement g) c = (c', r) →
  conn_committed c' = conn_committed c
  ∧ match r with
    | Some _ => conn_working c' = conn_working c
    | None => engine_exec (insert_statement g) (conn_working c)
              = inr (conn_working c')
    end.
Proof.
  unfold execute.
  destruct (engine_exec (insert_statement g) (conn_working c)) as [e|db].
  - intros [= <- <-]. auto.
  - unfold insert_statement at 1. intros [= <- <-]. auto.
Qed.

(** A successful insert adds exactly the row of the record. *)
Lemma engine_insert_exact (g : grant) (db db' : gmap string table) (t : table) :
  db !! "grants" = Some t →
  engine_exec (insert_statement g) db = inr db' →
  ∃ row,
    sqlite_row (table_columns t) g = Some row
    ∧ db' = <["grants" := Table (table_columns t) (table_rows t ++ [row])]> db.
Proof.
  intros Hdb. unfold insert_statement, engine_exec, sqlite_row.
  change (str_lower "grants") with "grants". rewrite Hdb.
  destruct (first_unknown _ _); [discriminate |].
  destruct (bind_params _) as [e|values]; [discriminate |].
  destruct (violates_key _ _ _); [discriminate |].
  intros [= <-]. eauto.
Qed.

(** The insert loop never commits, touches no other table, and on success
    has added the rows of the records, in order. *)
Lemma insert_all_outcome (gs : list grant) :
  ∀ (c c' : connection) (r : option string) (t : table),
  conn_working c !! "grants" = Some t →
  insert_all gs c = (c', r) →
  conn_committed c' = conn_committed c
  ∧ (∀ name, name ≠ "grants" → conn_working c' !! name = conn_working c !! name)
  ∧ (r = None →
     ∃ rows,
       conn_working c' !! "grants"
       = Some (Table (table_columns t) (table_rows t ++ rows))
       ∧ Forall2 (λ g row, sqlite_row (table_columns t) g = Some row) gs rows).
Proof.
  induction gs as [|g gs IH]; intros c c' r t Ht; simpl.
  - intros [= <- <-]. split; [reflexivity |]. split; [reflexivity |].
    intros _. exists []. rewrite app_nil_r. destruct t. split; [exact Ht | constructor].
  - destruct (execute (insert_statement g) c) as [c1 [e|]] eqn:Hexec.
    + intros [= <- <-].
      destruct (execute_insert_cases g c c1 _ Hexec) as (Hcom & Hw).
      split; [exact Hcom |]. split; [now rewrite Hw | discriminate].
    + intros Hrest.
      destruct (execute_insert_cases g c c1 _ Hexec) as (Hcom & Hw).
      destruct (engine_insert_exact g _ _ t Ht Hw) as (row & Hrow & Hdb).
      assert (Ht1 : conn_working c1 !! "grants"
                    = Some (Table (table_columns t) (table_rows t ++ [row])))
        by (rewrite Hdb; apply lookup_insert_eq).
      destruct (IH c1 c' r _ Ht1 Hrest) as (Hcom' & Hother & Hrows).
      split; [congruence |]. split.
      * intros name Hname. rewrite Hother by exact Hname.
        rewrite Hdb. now apply lookup_insert_ne.
      * intros Hr. destruct (Hrows Hr) as (rows & Hlook & Hall).
        simpl in Hlook, Hall. exists (row :: rows). split.
        -- rewrite Hlook. now rewrite <- app_assoc.
        -- now constructor.
Qed.

Lemma sqlite_columns_names (rs : list grant) :
  col_name <$> sqlite_columns rs = "id" :: (safe_field <$> sorted_fieldnames rs).
Proof.
  unfold sqlite_columns. rewrite fmap_cons. f_equal.
  rewrite <- list_fmap_compose. reflexivity.
Qed.

Lemma sqlite_columns_one_key (rs : list grant) :
  length (filter (λ c, col_primary_key c = true) (sqlite_columns rs)) = 1%nat.
Proof.
  unfold sqlite_columns. rewrite filter_cons_True by reflexivity. simpl. f_equal.
  induction (sorted_fieldnames rs) as [|k ks IH]; [reflexivity |].
  simpl. rewrite filter_cons_False by discriminate. exact IH.
Qed.

(** [CREATE TABLE] for the columns of a run, where no table [grants] is:
    it fails exactly on a clash of column names. *)
Lemma engine_create (rs : list grant) (db : gmap string table) :
  db !! "grants" = None →
  match engine_exec (CreateTable "grants" (sqlite_columns rs)) db with
  | inl _ => column_clash rs
  | inr db' =>
      ¬ column_clash rs
      ∧ db' = <["grants" := Table (sqlite_columns rs) []]> db
  end.
Proof.
  intros Hdb. unfold engine_exec, column_clash.
  change (str_lower "grants") with "grants". rewrite Hdb.
  rewrite sqlite_columns_names.
  destruct (first_duplicate _) as [n|] eqn:Hdup.
  - intros Hnodup. clear -Hdup Hnodup.
    induction Hnodup as [|x l Hx Hl IH]; simpl in Hdup; [discriminate |].
    case_bool_decide; [contradiction | auto].
  - apply first_duplicate_None in Hdup.
    rewrite sqlite_columns_one_key. simpl. split; [tauto | reflexivity].
Qed.

(** Everything a run can leave behind, from a connection to the tables
    [db]. *)
Lemma sqlite_body_outcome (rs : list grant) (db : gmap string table) :
  ∀ c r, sqlite_body rs (connect db) = (c, r) →
  (∀ name, name ≠ "grants" → conn_committed c !! name = db !! name)
  ∧ match r with
    | Some _ =>
        conn_committed c !! "grants" = None
        ∨ conn_committed c !! "grants" = Some (Table (sqlite_columns rs) [])
    | None =>
        ¬ column_clash rs
        ∧ ∃ rows,
            conn_committed c !! "grants" = Some (Table (sqlite_columns rs) rows)
            ∧ Forall2 (λ g row, sqlite_row (sqlite_columns rs) g = Some row) rs rows
    end
  ∧ (column_clash rs → r ≠ None).
Proof.
  intros c r. unfold sqlite_body. rewrite execute_drop. simpl.
  set (db1 := delete "grants" db).
  assert (Hdb1 : db1 !! "grants" = None) by apply lookup_delete_eq.
  assert (Hother1 : ∀ name, name ≠ "grants" → db1 !! name = db !! name)
    by (intros name Hname; now apply lookup_delete_ne).
  pose proof (engine_create rs db1 Hdb1) as Hcreate.
  unfold execute at 1. cbn [conn_working conn_committed conn_in_transaction conn_executed].
  destruct (engine_exec (CreateTable "grants" (sqlite_columns rs)) db1) as [e|db2].
  - intros [= <- <-]. simpl. split; [exact Hother1 |]. split; [now left | discriminate].
  - destruct Hcreate as (Hclash & ->).
    set (db2 := <["grants" := Table (sqlite_columns rs) []]> db1).
    assert (Hdb2 : db2 !! "grants" = Some (Table (sqlite_columns rs) []))
      by apply lookup_insert_eq.
    assert (Hother2 : ∀ name, name ≠ "grants" → db2 !! name = db !! name).
    { intros name Hname. unfold db2. rewrite lookup_insert_ne by congruence.
      now apply Hother1. }
    set (c2 := Connection db2 db2 false _).
    destruct (insert_all rs c2) as [c3 r3] eqn:Hins.
    destruct (insert_all_outcome rs c2 c3 r3 _ Hdb2 Hins) as (Hcom & Hother & Hrows).
    simpl in Hcom, Hother, Hrows.
    destruct r3 as [e|]; intros [= <- <-].
    + split; [intros name Hname; rewrite Hcom; now apply Hother2 |].
      split; [right; now rewrite Hcom | tauto].
    + destruct (Hrows eq_refl) as (rows & Hlook & Hall).
      simpl. split; [intros name Hname; rewrite Hother by exact Hname;
                     now apply Hother2 |].
      split; [| tauto]. split; [exact Hclash |]. exists rows. auto.
Qed.

Lemma no_clash_keys (rs : list grant) (g : grant) (key : string) :
  ¬ column_clash rs → g ∈ rs → key ∈ attribute_keys g → safe_field key ≠ "id".
Proof.
  intros Hclash Hg Hkey Hid. apply Hclash. unfold column_clash.
  apply dec_stable in Hclash. rewrite fmap_cons in Hclash.
  apply NoDup_cons in Hclash as [Hnotin _]. exfalso. apply Hnotin.
  change (str_lower "id") with (str_lower (String "i" (String "d" EmptyString))).
  rewrite <- Hid. apply list_elem_of_fmap_2, list_elem_of_fmap_2.
  apply elem_of_sorted_fieldnames. now exists g.
Qed.

Lemma sqlite_row_id (ty : string) (columns : list column_def) (g : grant)
    (row : list sqlvalue) :
  (∀ key, key ∈ attribute_keys g → safe_field key ≠ "id") →
  sqlite_row (ColumnDef "id" ty true :: columns) g = Some row →
  row !! 0%nat = Some (SqlText (id_or_empty g)).
Proof.
  intros Hkeys. unfold sqlite_row.
  destruct (insert_values_head g Hkeys) as (tail & ->).
  destruct (bind_params _) as [e|values] eqn:Hbind; [discriminate |].
  simpl in Hbind. apply bind_params_head in Hbind as (rest & ->).
  intros [= <-]. reflexivity.
Qed.

Lemma sqlite_row_length (columns : list column_def) (g : grant)
    (row : list sqlvalue) :
  sqlite_row columns g = Some row → length row = length columns.
Proof.
  unfold sqlite_row. destruct (bind_params _) as [e|values]; [discriminate |].
  intros Hrow.
  assert (row = inserted_value (insert_values g).*1 values <$> (col_name <$> columns))
    as -> by congruence.
  now rewrite !length_fmap.
Qed.

(** What [export_to_sqlite] does once the file is open, in terms of the
    run of statements. *)
Lemma export_to_sqlite_run (self : api) (filename : string) (fs : filesystem)
    (db : gmap string table) :
  results self ≠ [] →
  open_error fs filename = None →
  database_at fs filename = Some db →
  ∃ c r,
    sqlite_body (results self) (connect db) = (c, r)
    ∧ ok (export_to_sqlite self filename fs) = bool_decide (r = None)
    ∧ fs_after (export_to_sqlite self filename fs)
      = write_file filename (DatabaseFile (conn_committed c)) fs.
Proof.
  intros Hne Hopen Hdb. unfold export_to_sqlite.
  destruct (results self) as [|g gs]; [done |].
  rewrite Hopen, Hdb.
  destruct (sqlite_body (g :: gs) (connect db)) as [c [e|]]; eexists _, _; eauto.
Qed.

Lemma export_to_sqlite_ok_inv (self : api) (filename : string) (fs : filesystem) :
  ok (export_to_sqlite self filename fs) = true →
  results self ≠ [] ∧ open_error fs filename = None
  ∧ ∃ db, database_at fs filename = Some db.
Proof.
  unfold export_to_sqlite.
  destruct (results self); [discriminate |].
  destruct (open_error fs filename); [discriminate |].
  destruct (database_at fs filename) as [db|]; [| discriminate].
  intros _. split; [done |]. eauto.
Qed.

(** X14.  When the table export returns [True], the ids of the records are
    pairwise distinct, no two columns clash, and the file holds the table
    [grants] with the declared columns and exactly one row per record, in
    list order, each with the record's id in the key column. *)
Theorem export_to_sqlite_success (self : api) (filename : string) (fs : filesystem) :
  ok (export_to_sqlite self filename fs) = true →
  distinct_ids (results self)
  ∧ ¬ column_clash (results self)
  ∧ ∃ db rows,
      files (fs_after (export_to_sqlite self filename fs)) !! filename
      = Some (DatabaseFile db)
      ∧ db !! "grants" = Some (Table (sqlite_columns (results self)) rows)
      ∧ Forall2 (λ g row, row !! 0%nat = Some (SqlText (id_or_empty g))
                          ∧ length row = length (sqlite_columns (results self)))
                (results self) rows.
Proof.
  intros Hok.
  destruct (export_to_sqlite_ok_inv _ _ _ Hok) as (Hne & Hopen & db0 & Hdb0).
  destruct (export_to_sqlite_run self filename fs db0 Hne Hopen Hdb0)
    as (c & r & Hrun & Hokr & Hfs).
  rewrite Hok in Hokr. symmetry in Hokr. apply bool_decide_eq_true in Hokr. subst r.
  destruct (sqlite_body_outcome _ _ _ _ Hrun) as (_ & (Hclash & rows & Hlook & Hrows) & _).
  split.
  { unfold distinct_ids. apply NoDup_alt. intros i j x Hi Hj.
    apply list_lookup_fmap_Some in Hi as (gi & -> & Hgi).
    apply list_lookup_fmap_Some in Hj as (gj & Hid & Hgj).
    destruct (decide (i = j)) as [| Hij]; [done |]. exfalso.
    destruct (decide (i < j)%nat) as [Hlt | Hge].
    - destruct (sqlite_body_duplicate (results self) db0 i j gi gj)
        as (c' & e & k & Hrun' & _); auto. congruence.
    - destruct (sqlite_body_duplicate (results self) db0 j i gj gi)
        as (c' & e & k & Hrun' & _); auto; [lia | congruence]. }
  split; [exact Hclash |].
  exists (conn_committed c), rows.
  split; [rewrite Hfs; apply lookup_insert_eq |].
  split; [exact Hlook |].
  apply Forall2_same_length_lookup. split; [eapply Forall2_length; eauto |].
  intros i g row Hg Hrow.
  pose proof (Forall2_lookup_lr _ _ _ _ _ _ Hrows Hg Hrow) as Hr.
  split.
  - unfold sqlite_columns in Hr at 1. eapply sqlite_row_id; [| exact Hr].
    intros key Hkey. eapply no_clash_keys; eauto.
    apply list_elem_of_lookup. eauto.
  - eapply sqlite_row_length. exact Hr.
Qed.

(** X15.  Exporting into an existing database keeps every other table as
    it was, whether the export succeeds or fails. *)
Theorem export_to_sqlite_keeps_other_tables
    (self : api) (filename : string) (fs : filesystem) (db : gmap string table) :
  results self ≠ [] →
  open_error fs filename = None →
  files fs !! filename = Some (DatabaseFile db) →
  ∃ db',
    files (fs_after (export_to_sqlite self filename fs)) !! filename
    = Some (DatabaseFile db')
    ∧ ∀ name, name ≠ "grants" → db' !! name = db !! name.
Proof.
  intros Hne Hopen Hfile.
  assert (Hdb : database_at fs filename = Some db)
    by (unfold database_at; now rewrite Hfile).
  destruct (export_to_sqlite_run self filename fs db Hne Hopen Hdb)
    as (c & r & Hrun & _ & Hfs).
  destruct (sqlite_body_outcome _ _ _ _ Hrun) as (Hother & _).
  exists (conn_committed c). split; [rewrite Hfs; apply lookup_insert_eq | exact Hother].
Qed.

(** X16.  A table export that fails after the file was opened leaves no
    rows: the table [grants] is then absent or empty, whatever it held
    before and however many inserts had gone through. *)
Theorem export_to_sqlite_failure_leaves_no_rows
    (self : api) (filename : string) (fs : filesystem) (db : gmap string table) :
  results self ≠ [] →
  open_error fs filename = None →
  database_at fs filename = Some db →
  ok (export_to_sqlite self filename fs) = false →
  ∃ db',
    files (fs_after (export_to_sqlite self filename fs)) !! filename
    = Some (DatabaseFile db')
    ∧ (db' !! "grants" = None
       ∨ db' !! "grants" = Some (Table (sqlite_columns (results self)) [])).
Proof.
  intros Hne Hopen Hdb Hok.
  destruct (export_to_sqlite_run self filename fs db Hne Hopen Hdb)
    as (c & r & Hrun & Hokr & Hfs).
  rewrite Hok in Hokr. symmetry in Hokr. apply bool_decide_eq_false in Hokr.
  destruct (sqlite_body_outcome _ _ _ _ Hrun) as (_ & Hcase & _).
  destruct r as [e|]; [| done].
  exists (conn_committed c). split; [rewrite Hfs; apply lookup_insert_eq | exact Hcase].
Qed.

Lemma fmap_NoDup_inj {A B : Type} (f : A → B) (l : list A) (x y : A) :
  NoDup (f <$> l) → x ∈ l → y ∈ l → f x = f y → x = y.
Proof.
  induction l as [|a l IH]; intros Hnd Hx Hy Hxy; [inversion Hx |].
  rewrite fmap_cons in Hnd. apply NoDup_cons in Hnd as [Ha Hnd].
  apply elem_of_cons in Hx as [-> | Hx]; apply elem_of_cons in Hy as [-> | Hy]; auto.
  - exfalso. apply Ha. rewrite Hxy. now apply list_elem_of_fmap_2.
  - exfalso. apply Ha. rewrite <- Hxy. now apply list_elem_of_fmap_2.
Qed.

(** X17.  The table export fails for every list in which an attribute is
    named [id], or in which two different attribute keys get the same
    column name once hyphens are replaced (letter case apart), such as
    [a-b] and [a_b]. *)
Theorem export_to_sqlite_name_clash
    (self : api) (filename : string) (fs : filesystem)
    (g1 g2 : grant) (k1 k2 : string) :
  g1 ∈ results self → k1 ∈ attribute_keys g1 →
  g2 ∈ results self → k2 ∈ attribute_keys g2 →
  (k1 = "id"
   ∨ (k1 ≠ k2 ∧ str_lower (safe_field k1) = str_lower (safe_field k2))) →
  column_clash (results self)
  ∧ ok (export_to_sqlite self filename fs) = false.
Proof.
  intros Hg1 Hk1 Hg2 Hk2 Hcase.
  assert (Hs1 : k1 ∈ sorted_fieldnames (results self))
    by (apply elem_of_sorted_fieldnames; eauto).
  assert (Hs2 : k2 ∈ sorted_fieldnames (results self))
    by (apply elem_of_sorted_fieldnames; eauto).
  assert (Hclash : column_clash (results self)).
  { unfold column_clash. intros Hnd. rewrite fmap_cons in Hnd.
    apply NoDup_cons in Hnd as [Hid Hnd].
    destruct Hcase as [-> | [Hne Heq]].
    - apply Hid. apply list_elem_of_fmap_2.
      apply (list_elem_of_fmap_2 safe_field _ "id") in Hs1. exact Hs1.
    - rewrite <- list_fmap_compose in Hnd.
      apply Hne. eapply (fmap_NoDup_inj (str_lower ∘ safe_field)); eauto. }
  split; [exact Hclash |].
  destruct (ok (export_to_sqlite self filename fs)) eqn:Hok; [| reflexivity].
  destruct (export_to_sqlite_ok_inv _ _ _ Hok) as (Hne & Hopen & db0 & Hdb0).
  destruct (export_to_sqlite_run self filename fs db0 Hne Hopen Hdb0)
    as (c & r & Hrun & Hokr & _).
  destruct (sqlite_body_outcome _ _ _ _ Hrun) as (_ & _ & Hfails).
  rewrite Hok in Hokr. symmetry in Hokr. apply bool_decide_eq_true in Hokr.
  now apply Hfails in Hclash.
Qed.

(** ** Table exporter: the stored values *)







Lemma stored_cell_null (g : grant) (key : string) :
  grant_attributes g ≫= dict_get key = None
  ∨ grant_attributes g ≫= dict_get key = Some JNull →
  stored_cell g key = inr SqlNull.
Proof. unfold stored_cell. intros [-> | ->]; reflexivity. Qed.

(** ** Output names and the pipeline of [main] *)

Lemma prefix_true_app (old s : string) :
  String.prefix old s = true → ∃ t, s = old +:+ t.
Proof.
  revert s. induction old as [|a old IH]; intros s; simpl.
  - intros _. exists s. destruct s; reflexivity.
  - destruct s as [|b s]; simpl; [discriminate |].
    destruct (ascii_dec a b) as [-> | Hne]; [| discriminate].
    intros H. destruct (IH s H) as (t & ->). now exists t.
Qed.

Lemma str_replace_absent (old new s : string) :
  (∀ t1 t2, s ≠ t1 +:+ old +:+ t2) → str_replace old new s = s.
Proof.
  unfold str_replace. induction s as [|c s IH]; intros Habsent; [reflexivity |].
  cbn [str_replace_from].
  destruct (String.prefix old (String c s)) eqn:Hprefix.
  - apply prefix_true_app in Hprefix as (t & Ht).
    exfalso. apply (Habsent EmptyString t). exact Ht.
  - f_equal. apply IH. intros t1 t2 ->.
    apply (Habsent (String c t1) t2). reflexivity.
Qed.

Lemma str_replace_past (a : ascii) (old new s t : string) :
  a ∉ list_ascii_of_string s →
  str_replace (String a old) new (s +:+ t)
  = s +:+ str_replace (String a old) new t.
Proof.
  unfold str_replace. induction s as [|c s IH]; intros Ha; [reflexivity |].
  simpl in Ha. apply not_elem_of_cons in Ha as [Hne Ha].
  change (String c s +:+ t) with (String c (s +:+ t)).
  cbn [str_replace_from String.prefix].
  destruct (ascii_dec a c) as [-> | _]; [done |].
  change (String c s +:+ str_replace_from (String a old) new 0 t)
    with (String c (s +:+ str_replace_from (String a old) new 0 t)).
  f_equal. now apply IH.
Qed.

Lemma str_replace_not_empty (old new s : string) :
  new ≠ EmptyString → s ≠ EmptyString → str_replace old new s ≠ EmptyString.
Proof.
  intros Hnew Hs. destruct s as [|c s]; [done |].
  unfold str_replace. cbn [str_replace_from].
  destruct (String.prefix old (String c s)); [| discriminate].
  now apply string_app_not_empty.
Qed.

Lemma output_names_cases (timestamp : string) (csv sqlite : option string) :
  ∃ c s,
    output_names timestamp csv sqlite = (Some c, Some s)
    ∧ c ≠ EmptyString ∧ s ≠ EmptyString
    ∧ (truthy_str csv = true → csv = Some c)
    ∧ (truthy_str sqlite = true → sqlite = Some s)
    ∧ (truthy_str csv = true → truthy_str sqlite = false →
       s = str_replace ".csv" ".db" c)
    ∧ (truthy_str csv = false → truthy_str sqlite = true →
       c = str_replace ".db" ".csv" s)
    ∧ (truthy_str csv = false → truthy_str sqlite = false →
       "."%char ∉ list_ascii_of_string timestamp →
       c = "results/arc_grants_" +:+ timestamp +:+ ".csv"
       ∧ s = "results/arc_grants_" +:+ timestamp +:+ ".db").
Proof.
  assert (Hgiven : ∀ a c0, ∃ c s,
            output_names timestamp (Some (String a c0)) sqlite = (Some c, Some s)
            ∧ c = String a c0
            ∧ (truthy_str sqlite = true → sqlite = Some s)
            ∧ (truthy_str sqlite = false → s = str_replace ".csv" ".db" c)
            ∧ s ≠ EmptyString).
  { intros a c0. unfold output_names.
    destruct sqlite as [[|b s0]|]; simpl; eexists _, _;
      (split; [reflexivity |]); (split; [reflexivity |]);
      repeat split; try discriminate; try reflexivity;
      try (apply str_replace_not_empty; discriminate). }
  assert (Hdb : ∀ csv0 b s0, truthy_str csv0 = false → ∃ c,
            output_names timestamp csv0 (Some (String b s0))
            = (Some c, Some (String b s0))
            ∧ c = str_replace ".db" ".csv" (String b s0) ∧ c ≠ EmptyString).
  { intros csv0 b s0 Hcsv0. unfold output_names.
    destruct csv0 as [[|a c0]|]; try discriminate; simpl; eexists;
      (split; [reflexivity |]); (split; [reflexivity |]);
      apply str_replace_not_empty; discriminate. }
  assert (Hnone : ∀ csv0 sqlite0,
            truthy_str csv0 = false → truthy_str sqlite0 = false →
            output_names timestamp csv0 sqlite0
            = (Some ("results/arc_grants_" +:+ timestamp +:+ ".csv"),
               Some (str_replace ".csv" ".db"
                       ("results/arc_grants_" +:+ timestamp +:+ ".csv")))).
  { intros csv0 sqlite0 H1 H2. unfold output_names.
    destruct csv0 as [[|a c0]|]; try discriminate;
      destruct sqlite0 as [[|b s0]|]; try discriminate; reflexivity. }
  destruct (truthy_str csv) eqn:Hcsv.
  - destruct csv as [[|a c0]|]; try discriminate.
    destruct (Hgiven a c0) as (c & s & Hnames & -> & Hs1 & Hs2 & Hs3).
    exists (String a c0), s. repeat split; auto; try discriminate.
  - destruct (truthy_str sqlite) eqn:Hsql.
    + destruct sqlite as [[|b s0]|]; try discriminate.
      destruct (Hdb csv b s0 Hcsv) as (c & Hnames & Hc & Hc').
      exists c, (String b s0). repeat split; auto; try discriminate.
    + eexists _, _. split; [apply (Hnone csv sqlite Hcsv Hsql) |].
      split; [discriminate |].
      split; [apply str_replace_not_empty; discriminate |].
      repeat split; try discriminate.
      change ("results/arc_grants_" +:+ timestamp +:+ ".csv")
        with ("results/arc_grants_" +:+ (timestamp +:+ ".csv")).
      rewrite str_replace_past by decide_by_computation.
      rewrite str_replace_past by assumption. reflexivity.
Qed.

(** X19.  After the three defaulting statements both output names are set
    and non-empty; a name that was given is kept; a missing database name
    is the CSV name with every [.csv] replaced by [.db], and the other way
    round; with neither given, both are made from the timestamp (which has
    no dot). *)
Theorem output_names_settled (timestamp : string) (csv sqlite : option string) :
  ∃ c s,
    output_names timestamp csv sqlite = (Some c, Some s)
    ∧ c ≠ EmptyString ∧ s ≠ EmptyString
    ∧ (truthy_str csv = true → csv = Some c)
    ∧ (truthy_str sqlite = true → sqlite = Some s)
    ∧ (truthy_str csv = true → truthy_str sqlite = false →
       s = str_replace ".csv" ".db" c)
    ∧ (truthy_str csv = false → truthy_str sqlite = true →
       c = str_replace ".db" ".csv" s)
    ∧ (truthy_str csv = false → truthy_str sqlite = false →
       "."%char ∉ list_ascii_of_string timestamp →
       c = "results/arc_grants_" +:+ timestamp +:+ ".csv"
       ∧ s = "results/arc_grants_" +:+ timestamp +:+ ".db").
Proof. apply output_names_cases. Qed.

(** An export to one path for both files: the CSV is written, the table
    export then finds a file that is not a database. *)
Lemma main_export_one_path (self : api) (path : string) (fs : filesystem) :
  results self ≠ [] →
  open_error fs path = None →
  ∃ rows,
    main_export self path path fs
    = (self,
       write_file path (CsvFile (csv_fieldnames (results self) :: rows)) fs,
       ["Exported " +:+ pretty (Z.of_nat (length (results self)))
        +:+ " grants to " +:+ path;
        "Error exporting to SQLite: file is not a database";
        "Export complete. Files saved as " +:+ path +:+ " and " +:+ path]).
Proof.
  intros Hne Hopen.
  assert (Hsql : ∀ rows,
            export_to_sqlite self path
              (write_file path (CsvFile (csv_fieldnames (results self) :: rows)) fs)
            = ExportResult false self
                (write_file path (CsvFile (csv_fieldnames (results self) :: rows)) fs)
                ["Error exporting to SQLite: file is not a database"]).
  { intros rows. unfold export_to_sqlite.
    destruct (results self) as [|g gs]; [done |].
    change (open_error (write_file path _ fs) path) with (open_error fs path).
    rewrite Hopen. unfold database_at, write_file. cbn [files].
    now rewrite lookup_insert_eq. }
  rewrite main_export_runs_both by exact Hne. cbv zeta.
  rewrite export_to_csv_self.
  assert (Hcsv : ∃ rows,
            export_to_csv self path fs
            = ExportResult true self
                (write_file path (CsvFile (csv_fieldnames (results self) :: rows)) fs)
                ["Exported " +:+ pretty (Z.of_nat (length (results self)))
                 +:+ " grants to " +:+ path]).
  { unfold export_to_csv. destruct (results self) as [|g gs]; [done |].
    rewrite Hopen, write_rows_ok.
    - eexists. reflexivity.
    - intros g' k Hg' Hk. right. apply elem_of_sorted_fieldnames. now exists g'.
    - left. }
  destruct Hcsv as (rows & ->). exists rows.
  cbn [fs_after out]. rewrite Hsql. reflexivity.
Qed.

(** X20.  When only a CSV name is given and it contains no [.csv], the
    database name comes out the same as the CSV name: [main] writes the CSV
    file, the table export fails on it as not a database, and the file
    stays the CSV. *)
Theorem main_same_destination
    (args : cli_args) (timestamp : string) (server : request → http_result)
    (fs : filesystem) (fuel : nat) (name : string)
    (fetched : list grant) (printed : list string) :
  arg_csv args = Some name →
  name ≠ EmptyString →
  (∀ t1 t2, name ≠ t1 +:+ ".csv" +:+ t2) →
  truthy_str (arg_sqlite args) = false →
  fetch_grants server (Some (build_filter_query (arg_filter args)))
    (arg_page_size args) (arg_max_pages args) fuel
  = Some (Returns fetched printed) →
  fetched ≠ [] →
  open_error fs name = None →
  ∃ rows said,
    main args timestamp server fs fuel
    = Some (Completed
              (write_file name (CsvFile (csv_fieldnames fetched :: rows)) fs)
              (said ++ printed
               ++ ["Exported " +:+ pretty (Z.of_nat (length fetched))
                   +:+ " grants to " +:+ name;
                   "Error exporting to SQLite: file is not a database";
                   "Export complete. Files saved as " +:+ name
                   +:+ " and " +:+ name])).
Proof.
  intros Hcsv Hname Habsent Hsql Hfetch Hne Hopen.
  destruct (output_names_cases timestamp (arg_csv args) (arg_sqlite args))
    as (c & s & Hnames & _ & _ & Hc & _ & Hs & _).
  rewrite Hcsv in Hc, Hs.
  assert (Htruthy : truthy_str (Some name) = true) by now destruct name.
  specialize (Hc Htruthy). injection Hc as <-.
  specialize (Hs Htruthy Hsql). rewrite str_replace_absent in Hs by exact Habsent.
  subst s.
  destruct (main_export_one_path (Api fetched) name fs Hne Hopen) as (rows & Hexp).
  exists rows. eexists. unfold main. rewrite Hcsv in Hnames. rewrite Hcsv, Hnames.
  cbv beta iota zeta. rewrite Hfetch.
  cbn [default from_option id]. cbn [results] in Hexp. rewrite Hexp. reflexivity.
Qed.

(** X21.  When the request for the first page is answered with a 4xx or
    5xx status, [main] runs to its end: the diagnostic is printed, no
    exporter is called, "No results found. Nothing exported." is printed
    and the file system is as before. *)
Theorem main_first_page_error
    (args : cli_args) (timestamp : string) (server : request → http_result)
    (fs : filesystem) (fuel : nat) (r : response) :
  let filter_query := build_filter_query (arg_filter args) in
  server (build_params (Some filter_query) (arg_page_size args) 1) = Responded r →
  raises_for_status r = true →
  main args timestamp server fs (S fuel)
  = Some (Completed fs
            ((if truthy_str (Some filter_query)
              then ["Using filter query: " +:+ filter_query] else [])
             ++ ["Fetching data from ARC Grants API...";
                 "Error fetching page 1: " +:+ error_text r;
                 status_diagnostic (status_code r);
                 "Total grants fetched: 0";
                 "No results found. Nothing exported."])).
Proof.
  intros filter_query Hr Hst. unfold main.
  destruct (output_names timestamp (arg_csv args) (arg_sqlite args)) as [csv sqlite].
  fold filter_query.
  assert (Hfetch :
    fetch_grants server (Some filter_query) (arg_page_size args)
      (arg_max_pages args) (S fuel)
    = Some (Returns []
              ["Fetching data from ARC Grants API...";
               "Error fetching page 1: " +:+ error_text r;
               status_diagnostic (status_code r);
               "Total grants fetched: 0"])).
  { unfold fetch_grants. simpl. unfold loop_body. simpl.
    rewrite Hr, Hst.
    rewrite (except_handler_bound _ (bind_response r initial_state) r eq_refl).
    reflexivity. }
  rewrite Hfetch. reflexivity.
Qed.

(** X23.  When the request for the first page gets no response, [main]
    does not run to its end: the [UnboundLocalError] of the fetcher leaves
    it, nothing is exported and the file system is as before. *)
Theorem main_crashes_when_unreachable
    (args : cli_args) (timestamp : string) (server : request → http_result)
    (fs : filesystem) (fuel : nat) (e_text : string) :
  let filter_query := build_filter_query (arg_filter args) in
  server (build_params (Some filter_query) (arg_page_size args) 1)
    = NoResponse e_text →
  main args timestamp server fs (S fuel)
  = Some (Crashed (UnboundLocalError "response") fs
            ((if truthy_str (Some filter_query)
              then ["Using filter query: " +:+ filter_query] else [])
             ++ ["Fetching data from ARC Grants API...";
                 "Error fetching page 1: " +:+ e_text])).
Proof.
  intros filter_query Hr. unfold main.
  destruct (output_names timestamp (arg_csv args) (arg_sqlite args)) as [csv sqlite].
  fold filter_query.
  unfold fetch_grants. simpl. unfold loop_body. simpl. rewrite Hr. reflexivity.
Qed.

(** X22.  However [main] ends, it has touched no file but its two output
    files: every other path holds what it held, and what can be opened is
    unchanged. *)
Theorem main_touches_only_outputs
    (args : cli_args) (timestamp : string) (server : request → http_result)
    (fs : filesystem) (fuel : nat) (o : main_outcome) (csv sqlite : string) :
  main args timestamp server fs fuel = Some o →
  output_names timestamp (arg_csv args) (arg_sqlite args) = (Some csv, Some sqlite) →
  open_error (fs_left o) = open_error fs
  ∧ ∀ path, path ≠ csv → path ≠ sqlite →
      files (fs_left o) !! path = files fs !! path.
Proof.
  intros Hmain Hnames. unfold main in Hmain. rewrite Hnames in Hmain.
  cbv beta iota zeta in Hmain.
  destruct (fetch_grants _ _ _ _ _) as [[fetched printed | e fetched printed]|];
    [| | discriminate].
  2: { injection Hmain as <-. simpl. auto. }
  cbn [default from_option id] in Hmain.
  destruct (main_export (Api fetched) csv sqlite fs) as [[self' fs'] out'] eqn:Hexp.
  injection Hmain as <-. simpl.
  unfold main_export in Hexp. cbn [results] in Hexp.
  destruct fetched as [|g gs]; [injection Hexp as _ <- _; auto |].
  injection Hexp as _ <- _.
  rewrite export_to_csv_self.
  pose proof (export_to_csv_touches (Api (g :: gs)) csv fs) as Hc.
  set (fs1 := fs_after (export_to_csv (Api (g :: gs)) csv fs)) in *.
  pose proof (export_to_sqlite_touches (Api (g :: gs)) sqlite fs1) as Hs.
  set (fs2 := fs_after (export_to_sqlite (Api (g :: gs)) sqlite fs1)) in *.
  assert (H1 : open_error fs1 = open_error fs
               ∧ ∀ path, path ≠ csv → files fs1 !! path = files fs !! path).
  { destruct Hc as [-> | (f & ->)]; [auto |]. split; [reflexivity |].
    intros path Hp. unfold write_file. simpl. now apply lookup_insert_ne. }
  assert (H2 : open_error fs2 = open_error fs1
               ∧ ∀ path, path ≠ sqlite → files fs2 !! path = files fs1 !! path).
  { destruct Hs as [-> | (f & ->)]; [auto |]. split; [reflexivity |].
    intros path Hp. unfold write_file. simpl. now apply lookup_insert_ne. }
  destruct H1 as [Ho1 Hf1], H2 as [Ho2 Hf2].
  split; [congruence |].
  intros path Hp1 Hp2. rewrite Hf2 by exact Hp2. now apply Hf1.
Qed.

(** X1.  A response with a 4xx or 5xx status, on any page, ends the loop
    without an exception: the line for that status is printed (access
    denied for 401 and 403, server error for 500, the bare code otherwise)
    and the records of the pages before it are returned. *)
Theorem fetch_grants_status_error
    (server : request → http_result) (filter_query : option string)
    (page_size : Z) (max_pages : option Z)
    (docs : list page_doc) (r : response) (fuel : nat) :
  serves_from server filter_query page_size 1 docs →
  (∀ i doc, docs !! i = Some doc →
     no_next_link doc = false
     ∧ reached_max max_pages (1 + Z.of_nat i) = false) →
  server (build_params filter_query page_size (1 + Z.of_nat (length docs)))
    = Responded r →
  raises_for_status r = true →
  (length docs < fuel)%nat →
  let got := concat (page_records <$> docs) in
  let code := status_code r in
  let line :=
    if bool_decide (code = 401 ∨ code = 403)
    then "Authentication error or API access denied."
    else if bool_decide (code = 500)
         then "Server error. Check your query parameters."
         else "HTTP error: " +:+ pretty code in
  ∃ pre,
    fetch_grants server filter_query page_size max_pages fuel =
      Some (Returns got
              (pre ++ ["Error fetching page "
                         +:+ pretty (1 + Z.of_nat (length docs)) +:+ ": "
                         +:+ error_text r;
                       line;
                       "Total grants fetched: " +:+ pretty (Z.of_nat (length got))])).
Proof.
  intros Hsrv Hgo Hr Hst Hfuel got code line.
  destruct (fetch_grants_error_status server filter_query page_size max_pages
              docs r fuel Hsrv Hgo Hr Hst Hfuel) as (pre & Hrun).
  exists pre. rewrite Hrun. fold got.
  replace (status_diagnostic (status_code r)) with line; [reflexivity |].
  unfold line, status_diagnostic. fold code.
  repeat case_bool_decide;
    repeat match goal with
           | |- context [?a =? ?b] => destruct (Z.eqb_spec a b)
           end; simpl; try reflexivity; lia.
Qed.

(** X9.  The declared type of a column is REAL exactly when some record,
    anywhere in the list, has an integer, a float or a boolean for that
    key; in every other case it is TEXT. *)
Theorem guess_field_type_real_iff (field : string) (rs : list grant) :
  let numeric_somewhere :=
    ∃ g attrs value,
      g ∈ rs ∧ grant_attributes g = Some attrs
      ∧ dict_get field attrs = Some value ∧ is_int_or_float value = true in
  (guess_field_type field rs = "REAL" ↔ numeric_somewhere)
  ∧ (guess_field_type field rs = "TEXT" ↔ ¬ numeric_somewhere).
Proof.
  intros numeric_somewhere.
  pose proof (guess_field_type_numeric_anywhere field rs) as Hreal.
  fold numeric_somewhere in Hreal.
  split; [exact Hreal |].
  destruct (guess_field_type_cases field rs) as [Ht | Hr].
  - split; [| intros _; exact Ht].
    intros _ Hn. apply Hreal in Hn. rewrite Ht in Hn. discriminate.
  - split.
    + intros Ht. rewrite Hr in Ht. discriminate.
    + intros Hn. exfalso. apply Hn, Hreal, Hr.
Qed.

End Pipeline.

(** ** The theorems at the sample data *)

Lemma two_page_server_serves :
  serves_pages two_page_server None 100 [page_one; page_two].
Proof.
  split; [discriminate |]. split.
  - intros [|[|i]] doc Hdoc; simpl in Hdoc; [| | discriminate];
      injection Hdoc as <-; (split; [| eexists; reflexivity]).
    + exists (Response 200 EmptyString (Some page_one)). repeat split.
    + exists (Response 200 EmptyString (Some page_two)). repeat split.
  - intros [|[|i]] doc Hdoc; simpl in Hdoc; [| | discriminate];
      injection Hdoc as <-; reflexivity.
Defined.

(** C1 (amended) on the two-page result set. *)
Lemma fetch_grants_concatenates_pages_witness :
  serves_pages two_page_server None 100 [page_one; page_two]
  ∧ (length [page_one; page_two] ≤ 2)%nat
  ∧ (∃ pre,
       fetch_grants example_repr two_page_server None 100 None 2 =
         Some (Returns (concat (page_records <$> [page_one; page_two]))
                 (pre ++ ["Reached end of results at page "
                            +:+ pretty (Z.of_nat (length [page_one; page_two]));
                          "Total grants fetched: "
                            +:+ pretty (Z.of_nat (length
                                  (concat (page_records <$> [page_one; page_two]))))])))
  ∧ (∀ m : Z, 1 ≤ m →
      ∃ out,
        fetch_grants example_repr two_page_server None 100 (Some m) 2 =
          Some (Returns
                  (concat (page_records <$> take (Z.to_nat m) [page_one; page_two]))
                  out))
  ∧ fetch_grants example_repr two_page_server None 100 (Some 0) 2
    = fetch_grants example_repr two_page_server None 100 None 2.
Proof.
  split; [exact two_page_server_serves |].
  split; [simpl; lia |].
  apply (fetch_grants_concatenates_pages example_repr two_page_server None 100
           [page_one; page_two] 2);
    [exact two_page_server_serves | simpl; lia].
Defined.

(** C1 as stated fails for [max_pages = 0]: the limit is not applied and
    both pages are fetched, not the first zero. *)
Lemma fetch_grants_max_pages_zero :
  serves_pages two_page_server None 100 [page_one; page_two]
  ∧ (∃ out,
       fetch_grants example_repr two_page_server None 100 (Some 0) 2
       = Some (Returns [grant_a; grant_b] out))
  ∧ ¬ ∃ out,
        fetch_grants example_repr two_page_server None 100 (Some 0) 2
        = Some (Returns
                  (concat (page_records <$> take (Z.to_nat 0) [page_one; page_two]))
                  out).
Proof.
  split; [exact two_page_server_serves |]. split.
  - eexists. vm_compute. reflexivity.
  - intros (out & H). vm_compute in H. discriminate H.
Qed.

(** C5: the failing input, a server that cannot be reached. *)
Lemma fetch_grants_no_response_first_page_witness :
  unreachable_server (build_params None 100 1) = NoResponse "Connection refused"
  ∧ fetch_grants example_repr unreachable_server None 100 None 1 =
      Some (Propagates (UnboundLocalError "response") []
              ["Fetching data from ARC Grants API...";
               "Error fetching page 1: " +:+ "Connection refused"]).
Proof.
  split; [reflexivity |].
  apply (fetch_grants_no_response_first_page example_repr unreachable_server
           None 100 None "Connection refused" 0).
  reflexivity.
Defined.





(** The run of C7's sample in full: the third insert is the one that fails,
    on the key, and the file is left with the empty table. *)
Lemma export_to_sqlite_duplicate_run :
  let r := export_to_sqlite example_dumps (Api [grant_a; grant_b; grant_a])
             "out.db" empty_disk in
  let run := sqlite_body example_dumps [grant_a; grant_b; grant_a] (connect ∅) in
  out r = ["Error exporting to SQLite: UNIQUE constraint failed: grants.id"]
  ∧ run.2 = Some "UNIQUE constraint failed: grants.id"
  ∧ statement_sql <$> conn_executed run.1
    = ["DROP TABLE IF EXISTS grants";
       "CREATE TABLE grants (id TEXT PRIMARY KEY, scheme_name TEXT, tags TEXT)";
       "INSERT INTO grants (`id`, `scheme_name`, `tags`) VALUES (?, ?, ?)";
       "INSERT INTO grants (`id`, `scheme_name`) VALUES (?, ?)";
       "INSERT INTO grants (`id`, `scheme_name`, `tags`) VALUES (?, ?, ?)"]
  ∧ files (fs_after r) !! "out.db"
    = Some (DatabaseFile
              {[ "grants" := Table (sqlite_columns [grant_a; grant_b; grant_a]) [] ]}).
Proof. repeat split; vm_compute; reflexivity. Qed.

(** The two sample records of C3 as written to the file. *)
Lemma export_to_csv_sample_file :
  files (fs_after (export_to_csv example_repr example_dumps
                     (Api [grant_a; grant_b]) "out.csv" empty_disk)) !! "out.csv"
  = Some (CsvFile [["id"; "scheme-name"; "tags"];
                   ["A"; "X"; example_dumps (JList [JStr "a"; JStr "b"])];
                   ["B"; "Y"; EmptyString]]).
Proof. vm_compute. reflexivity. Qed.

(** ** The further properties at the sample data *)

Lemma server_then_serves (later : http_result) :
  serves_from (server_then later) None 100 1 [page_one].
Proof.
  intros [|i] doc Hdoc; simpl in Hdoc; [| discriminate].
  injection Hdoc as <-. split; [| eexists; reflexivity].
  exists (Response 200 EmptyString (Some page_one)). repeat split.
Defined.

Lemma page_one_continues :
  ∀ i doc, [page_one] !! i = Some doc →
    no_next_link doc = false ∧ reached_max None (1 + Z.of_nat i) = false.
Proof.
  intros [|i] doc Hdoc; simpl in Hdoc; [| discriminate].
  injection Hdoc as <-. split; reflexivity.
Defined.

(** X1 on a server error for the second page. *)
Lemma fetch_grants_status_error_witness :
  raises_for_status server_error_response = true
  ∧ (length [page_one] < 2)%nat
  ∧ ∃ pre,
      fetch_grants example_repr (server_then (Responded server_error_response))
        None 100 None 2
      = Some (Returns [grant_a]
                (pre ++ ["Error fetching page 2: 500 Server Error: Internal Server Error";
                         "Server error. Check your query parameters.";
                         "Total grants fetched: 1"])).
Proof.
  split; [reflexivity |]. split; [simpl; lia |].
  apply (fetch_grants_status_error example_repr
           (server_then (Responded server_error_response)) None 100 None
           [page_one] server_error_response 2);
    [apply server_then_serves | apply page_one_continues
     | reflexivity | reflexivity | simpl; lia].
Defined.


(** X3 on a second page without [data]. *)
Lemma fetch_grants_missing_data_witness :
  json_body no_data_response = Some (PageDoc None None None)
  ∧ ∃ pre,
      fetch_grants example_repr (server_then (Responded no_data_response))
        None 100 None 2
      = Some (Returns [grant_a]
                (pre ++ ["No data found in response."; "Total grants fetched: 1"])).
Proof.
  split; [reflexivity |].
  apply (fetch_grants_missing_data example_repr
           (server_then (Responded no_data_response)) None 100 None
           [page_one] no_data_response (PageDoc None None None) 2);
    [apply server_then_serves | apply page_one_continues
     | reflexivity | reflexivity | reflexivity | reflexivity | simpl; lia].
Defined.

(** X4 on a second page whose body is not JSON. *)
Lemma fetch_grants_undecodable_body_witness :
  raises_for_status undecodable_response = false
  ∧ json_body undecodable_response = None
  ∧ ∃ pre,
      fetch_grants example_repr (server_then (Responded undecodable_response))
        None 100 None 2
      = Some (Returns [grant_a]
                (pre ++ ["Error fetching page 2: Expecting value: line 1 column 1 (char 0)";
                         "HTTP error: 200";
                         "Total grants fetched: 1"])).
Proof.
  split; [reflexivity |]. split; [reflexivity |].
  apply (fetch_grants_undecodable_body example_repr
           (server_then (Responded undecodable_response)) None 100 None
           [page_one] undecodable_response 2);
    [apply server_then_serves | apply page_one_continues
     | reflexivity | reflexivity | reflexivity | simpl; lia].
Defined.

(** X5 on the two-page result set. *)
Lemma fetch_grants_returns_served_pages_witness :
  let printed :=
    ["Fetching data from ARC Grants API..."; "Found 2 grants across 2 pages";
     "Fetching page 2/2..."; "Reached end of results at page 2";
     "Total grants fetched: 2"] in
  fetch_grants example_repr two_page_server None 100 (Some 5) 2
  = Some (Returns [grant_a; grant_b] printed)
  ∧ ∃ docs,
      serves_from two_page_server None 100 1 docs
      ∧ [grant_a; grant_b] = concat (page_records <$> docs)
      ∧ ∀ m, Some 5 = Some m → 1 ≤ m → (length docs ≤ Z.to_nat m)%nat.
Proof.
  cbv zeta. split; [vm_compute; reflexivity |].
  apply (fetch_grants_returns_served_pages example_repr two_page_server None 100
           (Some 5) 2 [grant_a; grant_b]
           ["Fetching data from ARC Grants API..."; "Found 2 grants across 2 pages";
            "Fetching page 2/2..."; "Reached end of results at page 2";
            "Total grants fetched: 2"]).
  vm_compute. reflexivity.
Defined.


(** X7 with a limit of three pages. *)
Lemma fetch_grants_max_pages_bound_witness :
  1 ≤ 3
  ∧ ∃ o, fetch_grants example_repr two_page_server None 100 (Some 3) (Z.to_nat 3)
         = Some o.
Proof.
  split; [lia |].
  apply (fetch_grants_max_pages_bound example_repr two_page_server None 100 3). lia.
Defined.

(** X10 on the two sample records in both orders. *)
Lemma export_schema_order_independent_witness :
  (∀ g, g ∈ [grant_a; grant_b] ↔ g ∈ [grant_b; grant_a])
  ∧ csv_fieldnames [grant_a; grant_b] = csv_fieldnames [grant_b; grant_a]
  ∧ sqlite_fields [grant_a; grant_b] = sqlite_fields [grant_b; grant_a].
Proof.
  assert (H : ∀ g, g ∈ [grant_a; grant_b] ↔ g ∈ [grant_b; grant_a]).
  { intros g. rewrite !elem_of_cons, !elem_of_nil. tauto. }
  split; [exact H |].
  destruct (export_schema_order_independent [grant_a; grant_b] [grant_b; grant_a] H)
    as (Hcsv & Hfields & _).
  split; assumption.
Defined.

(** X12 on the two sample records. *)
Lemma export_to_csv_rectangular_witness :
  results (Api [grant_a; grant_b]) ≠ []
  ∧ open_error empty_disk "out.csv" = None
  ∧ ∃ rows,
      files (fs_after (export_to_csv example_repr example_dumps
                         (Api [grant_a; grant_b]) "out.csv" empty_disk)) !! "out.csv"
      = Some (CsvFile (csv_fieldnames [grant_a; grant_b] :: rows))
      ∧ length rows = 2%nat.
Proof.
  split; [discriminate |]. split; [reflexivity |].
  destruct (export_to_csv_rectangular example_repr example_dumps
              (Api [grant_a; grant_b]) "out.csv" empty_disk)
    as (rows & Hfile & Hlen & _); [discriminate | reflexivity |].
  exists rows. split; assumption.
Defined.

(** X14 on the two sample records. *)
Lemma export_to_sqlite_success_witness :
  ok (export_to_sqlite example_dumps (Api [grant_a; grant_b]) "out.db" empty_disk)
  = true
  ∧ distinct_ids [grant_a; grant_b]
  ∧ ¬ column_clash [grant_a; grant_b].
Proof.
  assert (Hok : ok (export_to_sqlite example_dumps (Api [grant_a; grant_b])
                      "out.db" empty_disk) = true)
    by (vm_compute; reflexivity).
  split; [exact Hok |].
  destruct (export_to_sqlite_success example_dumps (Api [grant_a; grant_b])
              "out.db" empty_disk Hok) as (Hids & Hclash & _).
  split; assumption.
Defined.

(** X15 on a database that has a table [notes]. *)
Lemma export_to_sqlite_keeps_other_tables_witness :
  files disk_with_database !! "out.db"
  = Some (DatabaseFile {[ "notes" := Table [ColumnDef "body" "TEXT" false]
                                           [[SqlText "keep me"]] ]})
  ∧ ∃ db',
      files (fs_after (export_to_sqlite example_dumps (Api [grant_a; grant_b])
                         "out.db" disk_with_database)) !! "out.db"
      = Some (DatabaseFile db')
      ∧ db' !! "notes"
        = Some (Table [ColumnDef "body" "TEXT" false] [[SqlText "keep me"]]).
Proof.
  assert (Hfile : files disk_with_database !! "out.db"
    = Some (DatabaseFile {[ "notes" := Table [ColumnDef "body" "TEXT" false]
                                             [[SqlText "keep me"]] ]}))
    by (vm_compute; reflexivity).
  split; [exact Hfile |].
  destruct (export_to_sqlite_keeps_other_tables example_dumps
              (Api [grant_a; grant_b]) "out.db" disk_with_database _
              ltac:(discriminate) eq_refl Hfile) as (db' & Hdb' & Hother).
  exists db'. split; [exact Hdb' |].
  rewrite Hother by discriminate. vm_compute. reflexivity.
Defined.

(** X16 on a list whose third record repeats the id of the first. *)
Lemma export_to_sqlite_failure_leaves_no_rows_witness :
  database_at empty_disk "out.db" = Some ∅
  ∧ ok (export_to_sqlite example_dumps (Api [grant_a; grant_b; grant_a])
          "out.db" empty_disk) = false
  ∧ ∃ db',
      files (fs_after (export_to_sqlite example_dumps
                         (Api [grant_a; grant_b; grant_a]) "out.db" empty_disk))
        !! "out.db"
      = Some (DatabaseFile db')
      ∧ (db' !! "grants" = None
         ∨ db' !! "grants"
           = Some (Table (sqlite_columns [grant_a; grant_b; grant_a]) [])).
Proof.
  assert (Hok : ok (export_to_sqlite example_dumps (Api [grant_a; grant_b; grant_a])
                      "out.db" empty_disk) = false)
    by (vm_compute; reflexivity).
  split; [reflexivity |]. split; [exact Hok |].
  apply (export_to_sqlite_failure_leaves_no_rows example_dumps
           (Api [grant_a; grant_b; grant_a]) "out.db" empty_disk ∅);
    [discriminate | reflexivity | reflexivity | exact Hok].
Defined.

(** X17 on the keys [a-b] and [a_b] of one record. *)
Lemma export_to_sqlite_name_clash_witness :
  "a-b" ∈ attribute_keys grant_clashing
  ∧ "a_b" ∈ attribute_keys grant_clashing
  ∧ str_lower (safe_field "a-b") = str_lower (safe_field "a_b")
  ∧ ok (export_to_sqlite example_dumps (Api [grant_clashing]) "out.db" empty_disk)
    = false.
Proof.
  assert (H1 : "a-b" ∈ attribute_keys grant_clashing) by left.
  assert (H2 : "a_b" ∈ attribute_keys grant_clashing) by (right; left).
  split; [exact H1 |]. split; [exact H2 |]. split; [reflexivity |].
  apply (export_to_sqlite_name_clash example_dumps (Api [grant_clashing])
           "out.db" empty_disk grant_clashing grant_clashing "a-b" "a_b");
    [left | exact H1 | left | exact H2 |].
  right. split; [discriminate | reflexivity].
Defined.


Lemma out_txt_has_no_csv (t1 t2 : string) : "out.txt" ≠ t1 +:+ ".csv" +:+ t2.
Proof.
  intros H.
  repeat (destruct t1 as [|? t1]; vm_compute in H;
          [discriminate H | injection H as _ H]).
  destruct t1; discriminate H.
Defined.

(** X20 on [--csv out.txt] alone. *)
Lemma main_same_destination_witness :
  arg_csv text_file_args = Some "out.txt"
  ∧ truthy_str (arg_sqlite text_file_args) = false
  ∧ open_error empty_disk "out.txt" = None
  ∧ ∃ rows said,
      main example_repr example_dumps text_file_args "20260101_120000"
        two_page_server empty_disk 2
      = Some (Completed
                (write_file "out.txt"
                   (CsvFile (csv_fieldnames [grant_a; grant_b] :: rows)) empty_disk)
                (said
                 ++ ["Fetching data from ARC Grants API...";
                     "Found 2 grants across 2 pages"; "Fetching page 2/2...";
                     "Reached end of results at page 2"; "Total grants fetched: 2"]
                 ++ ["Exported " +:+ pretty (Z.of_nat (length [grant_a; grant_b]))
                     +:+ " grants to " +:+ "out.txt";
                     "Error exporting to SQLite: file is not a database";
                     "Export complete. Files saved as " +:+ "out.txt"
                     +:+ " and " +:+ "out.txt"])).
Proof.
  split; [reflexivity |]. split; [reflexivity |]. split; [reflexivity |].
  apply (main_same_destination example_repr example_dumps text_file_args
           "20260101_120000" two_page_server empty_disk 2 "out.txt"
           [grant_a; grant_b]
           ["Fetching data from ARC Grants API...";
            "Found 2 grants across 2 pages"; "Fetching page 2/2...";
            "Reached end of results at page 2"; "Total grants fetched: 2"]);
    [reflexivity | discriminate | exact out_txt_has_no_csv | reflexivity
     | vm_compute; reflexivity | discriminate | reflexivity].
Defined.

(** X21 on a server that answers every request with a server error. *)
Lemma main_first_page_error_witness :
  broken_server (build_params (Some (build_filter_query (arg_filter plain_args)))
                   (arg_page_size plain_args) 1)
  = Responded server_error_response
  ∧ raises_for_status server_error_response = true
  ∧ main example_repr example_dumps plain_args "20260101_120000" broken_server
      empty_disk 1
    = Some (Completed empty_disk
              ["Fetching data from ARC Grants API...";
               "Error fetching page 1: 500 Server Error: Internal Server Error";
               "Server error. Check your query parameters.";
               "Total grants fetched: 0";
               "No results found. Nothing exported."]).
Proof.
  split; [reflexivity |]. split; [reflexivity |].
  apply (main_first_page_error example_repr example_dumps plain_args
           "20260101_120000" broken_server empty_disk 0 server_error_response);
    reflexivity.
Defined.

(** X22 on a run that writes both default files. *)
Lemma main_touches_only_outputs_witness :
  ∃ o,
    main example_repr example_dumps plain_args "20260101_120000" two_page_server
      empty_disk 2 = Some o
    ∧ output_names "20260101_120000" (arg_csv plain_args) (arg_sqlite plain_args)
      = (Some "results/arc_grants_20260101_120000.csv",
         Some "results/arc_grants_20260101_120000.db")
    ∧ open_error (fs_left o) = open_error empty_disk
    ∧ ∀ path, path ≠ "results/arc_grants_20260101_120000.csv" →
        path ≠ "results/arc_grants_20260101_120000.db" →
        files (fs_left o) !! path = files empty_disk !! path.
Proof.
  destruct (main example_repr example_dumps plain_args "20260101_120000"
              two_page_server empty_disk 2) as [o|] eqn:Hmain;
    [| vm_compute in Hmain; discriminate Hmain].
  exists o. split; [reflexivity |]. split; [reflexivity |].
  apply (main_touches_only_outputs example_repr example_dumps plain_args
           "20260101_120000" two_page_server empty_disk 2 o
           "results/arc_grants_20260101_120000.csv"
           "results/arc_grants_20260101_120000.db" Hmain).
  reflexivity.
Defined.

(** X23 on the server that cannot be reached. *)
Lemma main_crashes_when_unreachable_witness :
  unreachable_server
    (build_params (Some (build_filter_query (arg_filter plain_args)))
       (arg_page_size plain_args) 1)
  = NoResponse "Connection refused"
  ∧ main example_repr example_dumps plain_args "20260101_120000" unreachable_server
      empty_disk 1
    = Some (Crashed (UnboundLocalError "response") empty_disk
              ["Fetching data from ARC Grants API...";
               "Error fetching page 1: Connection refused"]).
Proof.
  split; [reflexivity |].
  apply (main_crashes_when_unreachable example_repr example_dumps plain_args
           "20260101_120000" unreachable_server empty_disk 0 "Connection refused").
  reflexivity.
Defined.
